(** * Easy-Finds-Hub: the admin dashboard's login and article publishing

    A shallow embedding of
      - [src/contexts/AuthContext.tsx]   ([login], [logout]),
      - [src/pages/Dashboard.tsx]        ([AddArticle]: the registered
        validation rules, [onSubmit], [removeImage]),
      - [src/components/ArticlePreview.tsx] (the tag chips),
    together with the parts of the JavaScript runtime these rely on:
    strings as sequences of UTF-16 code units, [String.prototype.split],
    [String.prototype.trim], [RegExp.prototype.test] for the e-mail
    pattern, and the number-to-string conversion of template literals. *)

From Stdlib Require Import Ascii String DecimalString.
From Stdlib Require DecimalPos DecimalZ.
From Stdlib Require Import List Bool Arith NArith ZArith Lia.
Import ListNotations.

Set Implicit Arguments.

(** ** JavaScript strings *)

Module Js.

(** A JavaScript string is a sequence of 16-bit code units; [length],
    [===], [split], [trim] and a regular expression without the [u] flag
    all work on code units. *)
Definition char := N.
Definition jsstring := list char.

(** ASCII literals of the source, as code units. *)
Definition lit (s : string) : jsstring := map N_of_ascii (list_ascii_of_string s).

Definition eqb (a b : jsstring) : bool :=
  if list_eq_dec N.eq_dec a b then true else false.

Definition comma : char := 44%N.
Definition at_sign : char := 64%N.
Definition full_stop : char := 46%N.

(** WhiteSpace and LineTerminator of ECMAScript: what [trim] strips and
    what [\s] matches. *)
Definition is_white_space (c : char) : bool :=
  existsb (N.eqb c)
    [ 9; 10; 11; 12; 13; 32; 160; 5760; 8232; 8233; 8239; 8287; 12288; 65279 ]%N
  || ((8192 <=? c) && (c <=? 8202))%N.

(** [s.split(sep)] for a one-character separator: the pieces between the
    occurrences of [sep], empty pieces included; the empty string gives one
    empty piece. *)
Fixpoint split (sep : char) (s : jsstring) : list jsstring :=
  match s with
  | [] => [[]]
  | c :: r =>
      if N.eqb c sep then [] :: split sep r
      else match split sep r with
           | piece :: rest => (c :: piece) :: rest
           | [] => [[c]]
           end
  end.

(** [pieces.join(sep)], the inverse direction. *)
Fixpoint join (sep : char) (pieces : list jsstring) : jsstring :=
  match pieces with
  | [] => []
  | [p] => p
  | p :: rest => p ++ sep :: join sep rest
  end.

Fixpoint trimStart (s : jsstring) : jsstring :=
  match s with
  | [] => []
  | c :: r => if is_white_space c then trimStart r else s
  end.

Definition trimEnd (s : jsstring) : jsstring := rev (trimStart (rev s)).

Definition trim (s : jsstring) : jsstring := trimEnd (trimStart s).

(** To say what [trim] does: a string of white space only, and a string
    that does not start with white space. *)
Definition blank (s : jsstring) : Prop :=
  Forall (fun c => is_white_space c = true) s.

Definition starts_solid (s : jsstring) : Prop :=
  match s with
  | [] => True
  | c :: _ => is_white_space c = false
  end.

(** [`${n}`] for an integral Number of magnitude below 1e21: its decimal
    digits, with a minus sign when negative. *)
Definition decimal (n : Z) : string := NilZero.string_of_int (Z.to_int n).

Definition number_to_string (n : Z) : jsstring := lit (decimal n).

(** *** Regular expressions

    The fragment the source uses: character classes, concatenation and
    [+]; alternation and the empty language appear in derivatives. The
    whole pattern is anchored by [^] and [$], so [test] decides membership
    of the whole string. *)
Inductive regex : Type :=
| Void : regex
| Eps : regex
| Class : (char -> bool) -> regex
| Seq : regex -> regex -> regex
| Alt : regex -> regex -> regex
| Star : regex -> regex.

Definition Plus (r : regex) : regex := Seq r (Star r).

Fixpoint nullable (r : regex) : bool :=
  match r with
  | Void => false
  | Eps => true
  | Class _ => false
  | Seq a b => nullable a && nullable b
  | Alt a b => nullable a || nullable b
  | Star _ => true
  end.

Fixpoint deriv (c : char) (r : regex) : regex :=
  match r with
  | Void => Void
  | Eps => Void
  | Class p => if p c then Eps else Void
  | Seq a b =>
      if nullable a then Alt (Seq (deriv c a) b) (deriv c b)
      else Seq (deriv c a) b
  | Alt a b => Alt (deriv c a) (deriv c b)
  | Star a => Seq (deriv c a) (Star a)
  end.

(** [/^r$/.test(s)] *)
Fixpoint test (r : regex) (s : jsstring) : bool :=
  match s with
  | [] => nullable r
  | c :: rest => test (deriv c r) rest
  end.

(** The language of a pattern, to state what [test] decides. *)
Inductive Matches : regex -> jsstring -> Prop :=
| MEps : Matches Eps []
| MClass p c : p c = true -> Matches (Class p) [c]
| MSeq a b s t : Matches a s -> Matches b t -> Matches (Seq a b) (s ++ t)
| MAltL a b s : Matches a s -> Matches (Alt a b) s
| MAltR a b s : Matches b s -> Matches (Alt a b) s
| MStar0 a : Matches (Star a) []
| MStarS a s t : Matches a s -> Matches (Star a) t -> Matches (Star a) (s ++ t).

End Js.

Import Js.

(** ** Exceptions and component state

    Handlers are [async] functions over React state. A computation takes
    the current state and gives back either a returned value or the thrown
    [Error], with the state it left behind. *)

Record Error : Type := { message : jsstring }.

Inductive completion (A : Type) : Type :=
| Returned : A -> completion A
| Thrown : Error -> completion A.
Arguments Returned {A} _.
Arguments Thrown {A} _.

Definition M (S A : Type) : Type := S -> completion A * S.

Definition ret {S A} (a : A) : M S A := fun s => (Returned a, s).

Definition bind {S A B} (m : M S A) (k : A -> M S B) : M S B :=
  fun s =>
    match m s with
    | (Returned a, s') => k a s'
    | (Thrown e, s') => (Thrown e, s')
    end.

Definition throw {S A} (e : Error) : M S A := fun s => (Thrown e, s).

Definition get {S} : M S S := fun s => (Returned s, s).

Definition modify {S} (f : S -> S) : M S unit := fun s => (Returned tt, f s).

(** [try { body } catch (error) { handler error } finally { cleanup }]:
    the cleanup runs on every path; when it returns normally the
    completion of the body, or of the handler, stands. *)
Definition try_catch_finally {S A}
    (body : M S A) (handler : Error -> M S A) (cleanup : M S unit) : M S A :=
  fun s =>
    let '(c, s1) :=
      match body s with
      | (Returned a, s') => (Returned a, s')
      | (Thrown e, s') => handler e s'
      end in
    match cleanup s1 with
    | (Returned _, s2) => (c, s2)
    | (Thrown e, s2) => (Thrown e, s2)
    end.

Declare Scope js_scope.
Delimit Scope js_scope with js.
Notation "x <- m ;; k" := (bind m (fun x => k))
  (at level 61, m at next level, right associativity) : js_scope.
Notation "m ;; k" := (bind m (fun _ => k))
  (at level 61, right associativity) : js_scope.
Open Scope js_scope.

(** [if (cond) { throw e }] *)
Definition throw_if {S} (cond : bool) (e : Error) : M S unit :=
  if cond then throw e else ret tt.

(** ** src/contexts/AuthContext.tsx *)

Module AuthContext.

Record User : Type := { email : jsstring; isAdmin : bool }.

(** [[^\s@]] *)
Definition not_space_or_at (c : char) : bool :=
  negb (is_white_space c || N.eqb c at_sign).

(** [/^[^\s@]+@[^\s@]+\.[^\s@]+$/] *)
Definition emailRegex : regex :=
  Seq (Plus (Class not_space_or_at))
   (Seq (Class (N.eqb at_sign))
    (Seq (Plus (Class not_space_or_at))
     (Seq (Class (N.eqb full_stop))
          (Plus (Class not_space_or_at))))).

(** The three [throw new Error(...)] of [login], named as the error
    taxonomy names them. *)
Definition InvalidFormat : Error :=
  {| message := lit "Please enter a valid email address" |}.
Definition WeakCredential : Error :=
  {| message := lit "Password must be at least 6 characters long" |}.
Definition AuthenticationFailed : Error :=
  {| message := lit "Invalid email or password" |}.

(** The state is the [user] of [useState<User | null>(null)]. *)
Definition setUser (u : option User) : M (option User) unit :=
  modify (fun _ => u).

Definition login (email password : jsstring) : M (option User) unit :=
  throw_if (negb (test emailRegex email)) InvalidFormat ;;
  throw_if (length password <? 6) WeakCredential ;;
  if Js.eqb email (lit "admin@easyfindshub.com")
     && Js.eqb password (lit "admin123")
  then setUser (Some {| email := email; isAdmin := true |})
  else throw AuthenticationFailed.

Definition logout : M (option User) unit := setUser None.

(** The one credential pair [login] compares against. *)
Definition admin_email : jsstring := lit "admin@easyfindshub.com".
Definition admin_password : jsstring := lit "admin123".

(** The shape [local@domain.tld] in words: three non-empty parts free of
    white space and of [@], joined by one [@] and one full stop. *)
Definition part (s : jsstring) : Prop :=
  s <> [] /\ Forall (fun c => not_space_or_at c = true) s.

Definition local_at_domain_tld (s : jsstring) : Prop :=
  exists l d t,
    part l /\ part d /\ part t /\
    s = l ++ at_sign :: d ++ full_stop :: t.

(** A pair that passes both format checks. *)
Definition well_formed (email password : jsstring) : Prop :=
  local_at_domain_tld email /\ 6 <= length password.

End AuthContext.

(** ** src/pages/Dashboard.tsx: the [AddArticle] component *)

Module Dashboard.

(** *** The form and its registered rules *)

(** The [<option>]s of the category [<select>]; a select always holds one
    of its options, the first one until the user picks another. *)
Inductive CategoryOption : Type :=
| home_decor | travel_deals | home_appliances | garden_planting.

Definition option_value (c : CategoryOption) : jsstring :=
  match c with
  | home_decor => lit "home-decor"
  | travel_deals => lit "travel-deals"
  | home_appliances => lit "home-appliances"
  | garden_planting => lit "garden-planting"
  end.

Definition category_values : list jsstring :=
  map option_value [home_decor; travel_deals; home_appliances; garden_planting].

(** What the four registered controls hold. *)
Record Inputs : Type := {
  title_input : jsstring;
  category_select : CategoryOption;
  excerpt_input : jsstring;
  tags_input : jsstring
}.

Definition initial_inputs : Inputs :=
  {| title_input := []; category_select := home_decor;
     excerpt_input := []; tags_input := [] |}.

(** [interface ArticleForm], as [handleSubmit] hands it to [onSubmit].
    [content] is declared there but never registered: it is kept in React
    state and no rule reads it. *)
Record ArticleForm : Type := {
  title : jsstring;
  category : jsstring;
  excerpt : jsstring;
  tags : jsstring
}.

Definition getValues (i : Inputs) : ArticleForm :=
  {| title := title_input i;
     category := option_value (category_select i);
     excerpt := excerpt_input i;
     tags := tags_input i |}.

Inductive FieldName : Type := Ftitle | Fcategory | Fexcerpt | Ftags.

Definition FieldName_eqb (a b : FieldName) : bool :=
  match a, b with
  | Ftitle, Ftitle | Fcategory, Fcategory
  | Fexcerpt, Fexcerpt | Ftags, Ftags => true
  | _, _ => false
  end.

Definition field_value (f : FieldName) (data : ArticleForm) : jsstring :=
  match f with
  | Ftitle => title data
  | Fcategory => category data
  | Fexcerpt => excerpt data
  | Ftags => tags data
  end.

(** The options object of a [register] call. *)
Record RegisterOptions : Type := {
  required : option jsstring;
  minLength : option (nat * jsstring);
  maxLength : option (nat * jsstring)
}.

(** The four [register(...)] calls of the form, in document order. *)
Definition registered : list (FieldName * RegisterOptions) :=
  [ (Ftitle,
     {| required := Some (lit "Title is required");
        minLength := Some (10, lit "Title must be at least 10 characters");
        maxLength := None |});
    (Fcategory,
     {| required := Some (lit "Category is required");
        minLength := None; maxLength := None |});
    (Fexcerpt,
     {| required := Some (lit "Excerpt is required");
        minLength := None;
        maxLength := Some (160, lit "Excerpt must be less than 160 characters") |});
    (Ftags,
     {| required := Some (lit "At least one tag is required");
        minLength := None; maxLength := None |}) ].

(** react-hook-form's built-in check of one field: [required] first, on
    the empty value; then, on a non-empty value, [maxLength] and
    [minLength] against its [length], the [maxLength] message winning when
    both are exceeded. *)
Definition exceeds_max (o : RegisterOptions) (v : jsstring) : bool :=
  match maxLength o with
  | Some (hi, _) => hi <? length v
  | None => false
  end.

Definition exceeds_min (o : RegisterOptions) (v : jsstring) : bool :=
  match minLength o with
  | Some (lo, _) => length v <? lo
  | None => false
  end.

Definition validateField (o : RegisterOptions) (v : jsstring) : option jsstring :=
  match v with
  | [] => required o
  | _ :: _ =>
      if exceeds_max o v then option_map snd (maxLength o)
      else if exceeds_min o v then option_map snd (minLength o)
      else None
  end.

(** [formState.errors]: one entry per failing field. Every registered
    field is checked; a failure of one does not stop the others. *)
Definition FieldErrors : Type := list (FieldName * jsstring).

Fixpoint validateAll (fields : list (FieldName * RegisterOptions))
    (data : ArticleForm) : FieldErrors :=
  match fields with
  | [] => []
  | (f, o) :: rest =>
      match validateField o (field_value f data) with
      | Some msg => (f, msg) :: validateAll rest data
      | None => validateAll rest data
      end
  end.

Definition validate (data : ArticleForm) : FieldErrors :=
  validateAll registered data.

(** The rules a field was registered with. *)
Definition rules_of (f : FieldName) : RegisterOptions :=
  match find (fun r => FieldName_eqb (fst r) f) registered with
  | Some r => snd r
  | None => {| required := None; minLength := None; maxLength := None |}
  end.

Definition error_of (f : FieldName) (errs : FieldErrors) : option jsstring :=
  match find (fun e => FieldName_eqb (fst e) f) errs with
  | Some e => Some (snd e)
  | None => None
  end.

(** *** Component state and the outside world *)

Record File : Type := { name : jsstring; bytes : list N }.

(** The document handed to [addDoc]:
    [{ ...data, content, imageUrl, tags, createdAt }]; the [tags] array
    replaces the raw [tags] string of [data]. *)
Record ArticleDoc : Type := {
  doc_title : jsstring;
  doc_category : jsstring;
  doc_excerpt : jsstring;
  doc_content : jsstring;
  doc_imageUrl : jsstring;
  doc_tags : list jsstring;
  doc_createdAt : jsstring
}.

(** The [useState] cells of [AddArticle] and the form of [useForm]. *)
Record State : Type := {
  inputs : Inputs;
  errors : FieldErrors;
  image : option File;
  imagePreview : jsstring;
  isSubmitting : bool;
  showPreview : bool;
  content : jsstring
}.

Definition initial_state : State :=
  {| inputs := initial_inputs; errors := []; image := None;
     imagePreview := []; isSubmitting := false; showPreview := false;
     content := [] |}.

(** [<button type="submit" disabled={isSubmitting}>] *)
Definition submit_disabled (s : State) : bool := isSubmitting s.

(** Calls that leave the component. *)
Inductive Event : Type :=
| UploadBytes : jsstring -> File -> Event
| GetDownloadURL : jsstring -> Event
| AddDoc : jsstring -> ArticleDoc -> Event
| ConsoleError : jsstring -> Error -> Event
| Alert : jsstring -> Event.

(** Each call is logged with the component state on screen when it was
    made; for an awaited call that is the state the user sees while the
    call is pending. *)
Record World : Type := { ui : State; log : list (State * Event) }.

(** How the outside answers: the clock, Firebase Storage and Firestore.
    [None] from [uploadBytes] or [addDoc] is a resolved promise, [Some e]
    one rejected with [e]. *)
Record Env : Type := {
  Date_now : Z;
  uploadBytes : jsstring -> File -> option Error;
  getDownloadURL : jsstring -> Error + jsstring;
  toISOString_now : jsstring;
  addDoc : jsstring -> ArticleDoc -> option Error
}.

Definition set_ui (f : State -> State) : M World unit :=
  modify (fun w => {| ui := f (ui w); log := log w |}).

Definition emit (e : Event) : M World unit :=
  modify (fun w => {| ui := ui w; log := log w ++ [(ui w, e)] |}).

(** The five state cells and the form, one updater each. *)
Definition with_isSubmitting (b : bool) (s : State) : State :=
  {| inputs := inputs s; errors := errors s; image := image s;
     imagePreview := imagePreview s; isSubmitting := b;
     showPreview := showPreview s; content := content s |}.

Definition with_content (c : jsstring) (s : State) : State :=
  {| inputs := inputs s; errors := errors s; image := image s;
     imagePreview := imagePreview s; isSubmitting := isSubmitting s;
     showPreview := showPreview s; content := c |}.

Definition with_image (f : option File) (s : State) : State :=
  {| inputs := inputs s; errors := errors s; image := f;
     imagePreview := imagePreview s; isSubmitting := isSubmitting s;
     showPreview := showPreview s; content := content s |}.

Definition with_imagePreview (p : jsstring) (s : State) : State :=
  {| inputs := inputs s; errors := errors s; image := image s;
     imagePreview := p; isSubmitting := isSubmitting s;
     showPreview := showPreview s; content := content s |}.

Definition with_errors (e : FieldErrors) (s : State) : State :=
  {| inputs := inputs s; errors := e; image := image s;
     imagePreview := imagePreview s; isSubmitting := isSubmitting s;
     showPreview := showPreview s; content := content s |}.

(** [reset()] of [useForm] without default values: the controls go back
    to what they held at mount and the errors are cleared. *)
Definition with_form_reset (s : State) : State :=
  {| inputs := initial_inputs; errors := []; image := image s;
     imagePreview := imagePreview s; isSubmitting := isSubmitting s;
     showPreview := showPreview s; content := content s |}.

Definition setIsSubmitting (b : bool) : M World unit := set_ui (with_isSubmitting b).
Definition setContent (c : jsstring) : M World unit := set_ui (with_content c).
Definition setImage (f : option File) : M World unit := set_ui (with_image f).
Definition setImagePreview (p : jsstring) : M World unit := set_ui (with_imagePreview p).
Definition setErrors (e : FieldErrors) : M World unit := set_ui (with_errors e).
Definition reset : M World unit := set_ui with_form_reset.

Definition removeImage : M World unit :=
  setImage None ;; setImagePreview [].

Definition alert (msg : jsstring) : M World unit := emit (Alert msg).

Definition console_error (label : jsstring) (e : Error) : M World unit :=
  emit (ConsoleError label e).

Section Submit.

Variable env : Env.

Definition await_uploadBytes (path : jsstring) (f : File) : M World unit :=
  emit (UploadBytes path f) ;;
  match uploadBytes env path f with
  | None => ret tt
  | Some e => throw e
  end.

Definition await_getDownloadURL (path : jsstring) : M World jsstring :=
  emit (GetDownloadURL path) ;;
  match getDownloadURL env path with
  | inr url => ret url
  | inl e => throw e
  end.

Definition await_addDoc (coll : jsstring) (d : ArticleDoc) : M World unit :=
  emit (AddDoc coll d) ;;
  match addDoc env coll d with
  | None => ret tt
  | Some e => throw e
  end.

(** The storage path of [ref(storage, `articles/${Date.now()}-${image.name}`)]. *)
Definition storage_path (now : Z) (img : File) : jsstring :=
  lit "articles/" ++ number_to_string now ++ lit "-" ++ name img.

(** [onSubmit], closed over the [image] and [content] of the render that
    created it. *)
Definition onSubmit (image : option File) (content : jsstring)
    (data : ArticleForm) : M World unit :=
  try_catch_finally
    (setIsSubmitting true ;;
     imageUrl <-
       match image with
       | Some img =>
           let storageRef := storage_path (Date_now env) img in
           await_uploadBytes storageRef img ;;
           await_getDownloadURL storageRef
       | None => ret (lit "")
       end ;;
     let tags := map trim (split comma (tags data)) in
     await_addDoc (lit "articles")
       {| doc_title := title data;
          doc_category := category data;
          doc_excerpt := excerpt data;
          doc_content := content;
          doc_imageUrl := imageUrl;
          doc_tags := tags;
          doc_createdAt := toISOString_now env |} ;;
     reset ;;
     setContent (lit "") ;;
     setImage None ;;
     setImagePreview (lit "") ;;
     alert (lit "Article published successfully!"))
    (fun error =>
       console_error (lit "Error publishing article:") error ;;
       alert (lit "Error publishing article. Please try again."))
    (setIsSubmitting false).

(** [handleSubmit(onSubmit)] of react-hook-form: read the controls, run
    every registered rule, publish the errors, and call [onValid] only
    when there is none. *)
Definition handleSubmit (onValid : ArticleForm -> M World unit) : M World unit :=
  w <- get ;;
  let data := getValues (inputs (ui w)) in
  let errs := validate data in
  setErrors errs ;;
  match errs with
  | [] => onValid data
  | _ :: _ => ret tt
  end.

(** Submitting the form as rendered from the current state. *)
Definition submit : M World unit :=
  w <- get ;;
  handleSubmit (onSubmit (image (ui w)) (content (ui w))).

(** Running a handler from a state with an empty log. *)
Definition run {A} (m : M World A) (s : State) : completion A * World :=
  m {| ui := s; log := [] |}.

End Submit.

Definition events (w : World) : list Event := map snd (log w).

(** *** Reading a run *)

Definition is_storage_call (e : Event) : bool :=
  match e with
  | UploadBytes _ _ | GetDownloadURL _ => true
  | _ => false
  end.

(** The documents handed to Firestore. *)
Fixpoint documents (l : list Event) : list ArticleDoc :=
  match l with
  | [] => []
  | AddDoc _ d :: r => d :: documents r
  | _ :: r => documents r
  end.

(** What the user is shown: the texts of the [alert]s. *)
Fixpoint alerts (l : list Event) : list jsstring :=
  match l with
  | [] => []
  | Alert msg :: r => msg :: alerts r
  | _ :: r => alerts r
  end.

(** How the outside answered a call: the error it rejected with, if any. *)
Definition rejection (env : Env) (e : Event) : option Error :=
  match e with
  | UploadBytes path f => uploadBytes env path f
  | GetDownloadURL path =>
      match getDownloadURL env path with
      | inl err => Some err
      | inr _ => None
      end
  | AddDoc coll d => addDoc env coll d
  | ConsoleError _ _ | Alert _ => None
  end.

Definition rejected (env : Env) (e : Event) : bool :=
  match rejection env e with
  | Some _ => true
  | None => false
  end.

(** A run published when a document was written and no call was
    rejected; it failed when some call was rejected. *)
Definition published (env : Env) (w : World) : bool :=
  match documents (events w) with
  | [] => false
  | _ :: _ => negb (existsb (rejected env) (events w))
  end.

Definition failed (env : Env) (w : World) : bool :=
  existsb (rejected env) (events w).

(** The draft: everything the user entered. *)
Definition draft (s : State) : Inputs * jsstring * option File * jsstring :=
  (inputs s, content s, image s, imagePreview s).

Definition empty_draft : Inputs * jsstring * option File * jsstring :=
  (initial_inputs, [], None, []).

(** The two failure classes of a publish in the error taxonomy. *)
Inductive PublishFailure : Type := UploadFailed | PersistFailed.

Definition title_too_short : jsstring := lit "Title must be at least 10 characters".

Definition success_text : jsstring := lit "Article published successfully!".
Definition failure_text : jsstring := lit "Error publishing article. Please try again.".
Definition failure_label : jsstring := lit "Error publishing article:".

End Dashboard.

(** ** src/components/ArticlePreview.tsx *)

Module ArticlePreview.

(** One [<span key={index}>{tag.trim()}</span>]. *)
Record Chip : Type := { key : nat; text : jsstring }.

Fixpoint map_indexed {A B} (f : A -> nat -> B) (i : nat) (l : list A) : list B :=
  match l with
  | [] => []
  | x :: r => f x i :: map_indexed f (S i) r
  end.

(** [tags?.split(',').map((tag, index) => ...)]: nothing while the prop is
    [undefined]. *)
Definition chips (tags : option jsstring) : list Chip :=
  match tags with
  | None => []
  | Some raw =>
      map_indexed (fun tag index => {| key := index; text := trim tag |}) 0
        (split comma raw)
  end.

End ArticlePreview.

(** ** Sample inputs *)

Module Samples.
Import Dashboard.

Definition photo : File := {| name := lit "sofa.png"; bytes := [137; 80; 78; 71]%N |}.

Definition good_inputs : Inputs :=
  {| title_input := lit "Ten cosy sofas";
     category_select := home_decor;
     excerpt_input := lit "Sofas we like.";
     tags_input := lit "a, b ,c" |}.

Definition nine_title_inputs : Inputs :=
  {| title_input := lit "Nine char";
     category_select := travel_deals;
     excerpt_input := lit "Sofas we like.";
     tags_input := lit "a, b ,c" |}.

Definition draft_with_photo : State :=
  {| inputs := good_inputs; errors := []; image := Some photo;
     imagePreview := lit "data:image/png;base64,iVBORw0KGgo=";
     isSubmitting := false; showPreview := true;
     content := lit "<p>Hello</p>" |}.

Definition draft_without_photo : State :=
  {| inputs := good_inputs; errors := []; image := None;
     imagePreview := []; isSubmitting := false; showPreview := false;
     content := lit "<p>Hello</p>" |}.

Definition all_fine : Env :=
  {| Date_now := 1700000000000%Z;
     uploadBytes := fun _ _ => None;
     getDownloadURL := fun path => inr (lit "https://storage.example/" ++ path);
     toISOString_now := lit "2023-11-14T22:13:20.000Z";
     addDoc := fun _ _ => None |}.

Definition storage_down : Env :=
  {| Date_now := 1700000000000%Z;
     uploadBytes := fun _ _ => Some {| message := lit "storage/unauthorized" |};
     getDownloadURL := fun path => inr (lit "https://storage.example/" ++ path);
     toISOString_now := lit "2023-11-14T22:13:20.000Z";
     addDoc := fun _ _ => None |}.

Definition firestore_down : Env :=
  {| Date_now := 1700000000000%Z;
     uploadBytes := fun _ _ => None;
     getDownloadURL := fun path => inr (lit "https://storage.example/" ++ path);
     toISOString_now := lit "2023-11-14T22:13:20.000Z";
     addDoc := fun _ _ => Some {| message := lit "permission-denied" |} |}.

End Samples.

(** ** The session over a run of calls *)

Module Session.
Import AuthContext.

(** What a component can do with the context value: the two functions
    [AuthProvider] hands out. Neither awaits anything, so each call runs
    to its end before the next one starts. *)
Inductive AuthCall : Type :=
| Login : jsstring -> jsstring -> AuthCall
| Logout : AuthCall.

Definition call (c : AuthCall) : M (option User) unit :=
  match c with
  | Login email password => login email password
  | Logout => logout
  end.

(** The [user] left by a run of calls; a rejected call is just followed by
    the next one. *)
Fixpoint after (calls : list AuthCall) (u : option User) : option User :=
  match calls with
  | [] => u
  | c :: rest => after rest (snd (call c u))
  end.

Definition admin_session : User := {| email := admin_email; isAdmin := true |}.

End Session.

(** ** src/pages/Dashboard.tsx: the shell around the routes *)

Module Shell.
Import AuthContext.

Inductive ShellEvent : Type :=
| Navigate : jsstring -> ShellEvent
| LogError : jsstring -> Error -> ShellEvent.

(** The session of the provider and what the shell did. *)
Record World : Type := { user : option User; trail : list ShellEvent }.

Definition navigate (path : jsstring) : M World unit :=
  modify (fun w => {| user := user w; trail := trail w ++ [Navigate path] |}).

Definition console_error (label : jsstring) (e : Error) : M World unit :=
  modify (fun w => {| user := user w; trail := trail w ++ [LogError label e] |}).

(** A function of the auth context, run on the provider's [user]. *)
Definition of_context {A} (m : M (option User) A) : M World A :=
  fun w =>
    let '(c, u) := m (user w) in
    (c, {| user := u; trail := trail w |}).

(** [try { body } catch (error) { handler error }] *)
Definition try_catch {S A} (body : M S A) (handler : Error -> M S A) : M S A :=
  fun s =>
    match body s with
    | (Returned a, s') => (Returned a, s')
    | (Thrown e, s') => handler e s'
    end.

(** [handleLogout], over whatever [logout] the context provides. *)
Definition handleLogout (logout : M World unit) : M World unit :=
  try_catch
    (logout ;;
     navigate (lit "/login"))
    (fun error => console_error (lit "Logout failed:") error).

End Shell.

(** ** src/pages/Dashboard.tsx: choosing the featured image *)

Module Staging.
Import Dashboard.

(** The component together with the [FileReader]s whose [loadend] has not
    fired yet, oldest first. *)
Record Picker : Type := { world : World; reading : list File }.

Definition of_component {A} (m : M World A) : M Picker A :=
  fun p =>
    let '(c, w) := m (world p) in
    (c, {| world := w; reading := reading p |}).

Definition readAsDataURL (f : File) : M Picker unit :=
  modify (fun p => {| world := world p; reading := reading p ++ [f] |}).

(** [handleImageChange]: [files] is [e.target.files]; [files?.[0]] is
    its first element, [undefined] when there is none. *)
Definition handleImageChange (files : list File) : M Picker unit :=
  match files with
  | file :: _ =>
      of_component (setImage (Some file)) ;;
      readAsDataURL file
  | [] => ret tt
  end.

Fixpoint remove_nth {A} (i : nat) (l : list A) : list A :=
  match l, i with
  | [], _ => []
  | _ :: r, 0 => r
  | x :: r, S j => x :: remove_nth j r
  end.

(** [reader.onloadend] of the [i]-th pending reader: [result] is
    [reader.result], [None] for the [null] of a failed read. Every reader
    of [imagePreview] tests it for truthiness only, so [null] is kept as
    the empty string. Nothing fires for a reader that is not pending. *)
Definition onloadend (i : nat) (result : option jsstring) : M Picker unit :=
  p <- get ;;
  match nth_error (reading p) i with
  | Some _ =>
      modify (fun p => {| world := world p; reading := remove_nth i (reading p) |}) ;;
      of_component
        (setImagePreview (match result with Some url => url | None => [] end))
  | None => ret tt
  end.

(** The picker after a computation, whatever it completed with. *)
Definition then_ {A} (m : M Picker A) (p : Picker) : Picker := snd (m p).

(** Some reads ending one after another, in the order given. *)
Fixpoint loadends (ends : list (nat * option jsstring)) (p : Picker) : Picker :=
  match ends with
  | [] => p
  | (i, result) :: rest => loadends rest (then_ (onloadend i result) p)
  end.

Definition fresh (s : State) : Picker :=
  {| world := {| ui := s; log := [] |}; reading := [] |}.

End Staging.

(** ** The storage key *)

Module Keys.

(** The hyphen between the clock value and the file name, which is also
    the minus sign of a negative clock value. *)
Definition dash : char := 45%N.

End Keys.

(** ** src/components/ArticlePreview.tsx: the whole pane *)

Module PreviewPane.

(** [ArticlePreviewProps]; [title], [tags] and [excerpt] come from
    [watch], which gives [undefined] for a field that holds no value yet. *)
Record Props : Type := {
  title : option jsstring;
  content : jsstring;
  tags : option jsstring;
  excerpt : option jsstring;
  imagePreview : jsstring
}.

(** What the pane puts on screen: the [<img>] source if there is one, the
    [<h1>], the chips, the excerpt paragraph and the markup injected with
    [dangerouslySetInnerHTML]. *)
Record Rendered : Type := {
  img_src : option jsstring;
  h1 : jsstring;
  spans : list ArticlePreview.Chip;
  paragraph : jsstring;
  inner_html : jsstring
}.

Definition placeholder : jsstring := lit "Article Title".

Definition ArticlePreview (props : Props) : Rendered :=
  {| img_src := match imagePreview props with
                | [] => None
                | _ :: _ => Some (imagePreview props)
                end;
     h1 := match title props with
           | Some (c :: r) => c :: r
           | Some [] | None => placeholder
           end;
     spans := ArticlePreview.chips (tags props);
     paragraph := match excerpt props with
                  | Some e => e
                  | None => []
                  end;
     inner_html := content props |}.

(** The props [AddArticle] passes once the fields hold [data]. *)
Definition props_of (data : Dashboard.ArticleForm) (content imagePreview : jsstring) : Props :=
  {| title := Some (Dashboard.title data);
     content := content;
     tags := Some (Dashboard.tags data);
     excerpt := Some (Dashboard.excerpt data);
     imagePreview := imagePreview |}.

End PreviewPane.

(** * Facts about the string operations *)

Module JsFacts.

Lemma eqb_eq (a b : jsstring) : Js.eqb a b = true <-> a = b.
Proof.
  unfold Js.eqb. destruct (list_eq_dec N.eq_dec a b); split; congruence.
Qed.

(** *** split and join *)

Lemma split_not_nil sep s : split sep s <> [].
Proof.
  destruct s as [|c r]; simpl; [discriminate|].
  destruct (N.eqb c sep); [discriminate|].
  destruct (split sep r); discriminate.
Qed.

Lemma join_cons sep p ps :
  ps <> [] -> join sep (p :: ps) = p ++ sep :: join sep ps.
Proof. destruct ps; [congruence | reflexivity]. Qed.

Lemma join_split sep s : join sep (split sep s) = s.
Proof.
  induction s as [|c r IH]; [reflexivity|].
  simpl. destruct (N.eqb_spec c sep) as [->|Hne].
  - rewrite join_cons by apply split_not_nil. simpl. now rewrite IH.
  - pose proof (split_not_nil sep r) as Hnn.
    destruct (split sep r) as [|p ps]; [congruence|].
    destruct ps as [|q qs]; simpl in *; now rewrite <- IH.
Qed.

Lemma split_pieces_free sep s :
  Forall (fun p => ~ In sep p) (split sep s).
Proof.
  induction s as [|c r IH]; simpl.
  - constructor; [tauto | constructor].
  - destruct (N.eqb_spec c sep) as [->|Hne].
    + constructor; [tauto | exact IH].
    + destruct (split sep r) as [|p ps].
      * constructor; [|constructor]. simpl. intros [H|[]]. congruence.
      * inversion IH as [|? ? Hp Hps]; subst. constructor; [|exact Hps].
        simpl. intros [H|H]; [congruence | tauto].
Qed.

Lemma split_app_free sep p s :
  ~ In sep p -> split sep (p ++ sep :: s) = p :: split sep s.
Proof.
  induction p as [|c r IH]; simpl; intros Hfree.
  - now rewrite N.eqb_refl.
  - destruct (N.eqb_spec c sep) as [->|Hne]; [tauto|].
    rewrite IH by tauto. reflexivity.
Qed.

Lemma split_free sep p : ~ In sep p -> split sep p = [p].
Proof.
  induction p as [|c r IH]; simpl; intros Hfree; [reflexivity|].
  destruct (N.eqb_spec c sep) as [->|Hne]; [tauto|].
  rewrite IH by tauto. reflexivity.
Qed.

(** [split] is the only way to cut a string into separator-free pieces. *)
Lemma split_join sep ps :
  ps <> [] -> Forall (fun p => ~ In sep p) ps -> split sep (join sep ps) = ps.
Proof.
  induction ps as [|p rest IH]; [congruence|].
  intros _ Hfree. inversion Hfree as [|? ? Hp Hrest]; subst.
  destruct rest as [|q qs].
  - simpl. now apply split_free.
  - rewrite join_cons by discriminate.
    rewrite split_app_free by assumption.
    now rewrite IH by (discriminate || assumption).
Qed.

Lemma split_length sep s :
  length (split sep s) = S (count_occ N.eq_dec s sep).
Proof.
  induction s as [|c r IH]; [reflexivity|].
  simpl. destruct (N.eqb_spec c sep) as [->|Hne].
  - destruct (N.eq_dec sep sep); [|congruence]. simpl. now rewrite IH.
  - destruct (N.eq_dec c sep); [congruence|].
    rewrite <- IH. destruct (split sep r); [|reflexivity].
    simpl in IH. discriminate.
Qed.

(** *** trim *)

Lemma trimStart_spec s :
  exists l, s = l ++ trimStart s /\ blank l /\ starts_solid (trimStart s).
Proof.
  induction s as [|c r (l & Heq & Hl & Hs)]; simpl.
  - exists []. repeat split. constructor.
  - destruct (is_white_space c) eqn:Hc.
    + exists (c :: l). simpl. rewrite <- Heq. repeat split; [|exact Hs].
      constructor; assumption.
    + exists []. repeat split; [constructor | exact Hc].
Qed.

Lemma trimStart_solid s : starts_solid s -> trimStart s = s.
Proof.
  destruct s as [|c r]; simpl; [reflexivity|]. now intros ->.
Qed.

Lemma starts_solid_app_l a b : a <> [] -> starts_solid (a ++ b) -> starts_solid a.
Proof. destruct a; [congruence | simpl; auto]. Qed.

Lemma blank_rev s : blank s -> blank (rev s).
Proof. unfold blank. intros H. now apply Forall_rev. Qed.

(** [trim s] is [s] without a blank prefix and a blank suffix, and neither
    starts nor ends with white space. *)
Lemma trim_spec s :
  exists l r,
    s = l ++ trim s ++ r /\ blank l /\ blank r /\
    starts_solid (trim s) /\ starts_solid (rev (trim s)).
Proof.
  unfold trim, trimEnd.
  destruct (trimStart_spec s) as (l & Hs & Hl & Hsolid).
  destruct (trimStart_spec (rev (trimStart s))) as (r & Hr & Hbr & Hsolid').
  set (body := trimStart (rev (trimStart s))) in *.
  assert (Hmid : trimStart s = rev body ++ rev r).
  { rewrite <- rev_app_distr, <- Hr. now rewrite rev_involutive. }
  exists l, (rev r). repeat split.
  - rewrite <- Hmid. exact Hs.
  - exact Hl.
  - now apply blank_rev.
  - destruct (rev body) eqn:Hb; [exact I|].
    rewrite Hmid in Hsolid. exact Hsolid.
  - now rewrite rev_involutive.
Qed.

Lemma trim_solid s : starts_solid s -> starts_solid (rev s) -> trim s = s.
Proof.
  intros H1 H2. unfold trim, trimEnd.
  rewrite (trimStart_solid _ H1), (trimStart_solid _ H2).
  apply rev_involutive.
Qed.

End JsFacts.

(** * Facts about the pattern matcher *)

Module RegexFacts.

Lemma Matches_nil_nullable r : Matches r [] <-> nullable r = true.
Proof.
  split.
  - intros H. remember [] as s eqn:Hs. induction H; simpl; auto.
    + discriminate.
    + apply app_eq_nil in Hs as [-> ->].
      rewrite IHMatches1, IHMatches2; auto.
    + rewrite IHMatches; auto.
    + rewrite IHMatches, orb_true_r; auto.
  - induction r; simpl; intros H; try discriminate.
    + constructor.
    + apply andb_true_iff in H as [Ha Hb].
      apply (MSeq (s := []) (t := [])); auto.
    + apply orb_true_iff in H as [Ha|Hb]; [apply MAltL | apply MAltR]; auto.
    + constructor.
Qed.

Lemma Matches_Seq_inv a b w :
  Matches (Seq a b) w ->
  exists u v, w = u ++ v /\ Matches a u /\ Matches b v.
Proof. inversion 1; subst; eauto. Qed.

(** A non-empty match of [Star a] starts with a non-empty match of [a]. *)
Lemma Matches_Star_cons a c s :
  Matches (Star a) (c :: s) ->
  exists s1 s2, s = s1 ++ s2 /\ Matches a (c :: s1) /\ Matches (Star a) s2.
Proof.
  intros H. remember (Star a) as r eqn:Hr. remember (c :: s) as w eqn:Hw.
  revert c s Hw. induction H; intros c' s' Hw; try discriminate.
  inversion Hr; subst a0. clear IHMatches1.
  destruct s as [|x xs].
  - simpl in Hw. apply IHMatches2; auto.
  - simpl in Hw. inversion Hw; subst. exists xs, t. auto.
Qed.

Lemma Matches_deriv c r s : Matches (deriv c r) s <-> Matches r (c :: s).
Proof.
  revert s. induction r as [| |p|a IHa b IHb|a IHa b IHb|a IHa]; intros s; simpl.
  - split; intros H; inversion H.
  - split; intros H; inversion H.
  - destruct (p c) eqn:Hp; split; intros H; inversion H; subst.
    + now constructor.
    + constructor.
    + congruence.
  - assert (Hseq : forall u, Matches (Seq (deriv c a) b) u ->
                             Matches (Seq a b) (c :: u)).
    { intros u H. inversion H; subst.
      change (c :: s0 ++ t) with ((c :: s0) ++ t).
      constructor; [now apply IHa | assumption]. }
    assert (Hinv : Matches (Seq a b) (c :: s) ->
                   Matches (Seq (deriv c a) b) s \/
                   (nullable a = true /\ Matches (deriv c b) s)).
    { intros H. apply Matches_Seq_inv in H as (u & v & Heq & Hu & Hv).
      destruct u as [|x xs]; simpl in Heq.
      - right. subst v. split; [now apply Matches_nil_nullable | now apply IHb].
      - inversion Heq; subst. left. constructor; [now apply IHa | assumption]. }
    destruct (nullable a) eqn:Hn; split; intros H.
    + inversion H; subst; [now apply Hseq|].
      change (c :: s) with ([] ++ c :: s).
      constructor; [now apply Matches_nil_nullable | now apply IHb].
    + destruct (Hinv H) as [H'|[_ H']]; [now apply MAltL | now apply MAltR].
    + now apply Hseq.
    + destruct (Hinv H) as [H'|[Hn' _]]; [assumption | congruence].
  - split; intros H; inversion H; subst.
    + apply MAltL. now apply IHa.
    + apply MAltR. now apply IHb.
    + apply MAltL. now apply IHa.
    + apply MAltR. now apply IHb.
  - split; intros H.
    + inversion H; subst.
      change (c :: s0 ++ t) with ((c :: s0) ++ t).
      constructor; [now apply IHa | assumption].
    + apply Matches_Star_cons in H as (s1 & s2 & -> & H1 & H2).
      constructor; [now apply IHa | assumption].
Qed.

(** [test] decides the language of the pattern. *)
Lemma test_Matches r s : test r s = true <-> Matches r s.
Proof.
  revert r. induction s as [|c s IH]; intros r; simpl.
  - symmetry. apply Matches_nil_nullable.
  - rewrite IH. apply Matches_deriv.
Qed.

Lemma Matches_Star_Class p s :
  Matches (Star (Class p)) s <-> Forall (fun c => p c = true) s.
Proof.
  split.
  - intros H. remember (Star (Class p)) as r eqn:Hr.
    induction H; try discriminate; [constructor|].
    inversion Hr; subst a. inversion H; subst. simpl.
    constructor; auto.
  - induction 1 as [|c s Hc _ IH]; [constructor|].
    change (c :: s) with ([c] ++ s). constructor; [now constructor | exact IH].
Qed.

Lemma Matches_Plus_Class p s :
  Matches (Plus (Class p)) s <-> s <> [] /\ Forall (fun c => p c = true) s.
Proof.
  unfold Plus. split.
  - intros H. apply Matches_Seq_inv in H as (u & v & -> & Hu & Hv).
    inversion Hu; subst. simpl. split; [discriminate|].
    constructor; [assumption | now apply Matches_Star_Class].
  - intros [Hne Hall]. destruct s as [|c s]; [congruence|].
    inversion Hall; subst.
    change (c :: s) with ([c] ++ s).
    constructor; [now constructor | now apply Matches_Star_Class].
Qed.

Lemma Matches_Class_eqb k s : Matches (Class (N.eqb k)) s <-> s = [k].
Proof.
  split.
  - intros H. inversion H; subst. f_equal. symmetry. now apply N.eqb_eq.
  - intros ->. constructor. apply N.eqb_refl.
Qed.

End RegexFacts.

Module AuthFacts.
Import AuthContext RegexFacts JsFacts.

(** The pattern of [login] accepts exactly the [local@domain.tld] shape. *)
Lemma emailRegex_shape s :
  test emailRegex s = true <-> local_at_domain_tld s.
Proof.
  rewrite test_Matches. unfold emailRegex, local_at_domain_tld, part. split.
  - intros H.
    apply Matches_Seq_inv in H as (l & r1 & -> & Hl & H1).
    apply Matches_Seq_inv in H1 as (a & r2 & -> & Ha & H2).
    apply Matches_Seq_inv in H2 as (d & r3 & -> & Hd & H3).
    apply Matches_Seq_inv in H3 as (o & t & -> & Ho & Ht).
    apply Matches_Class_eqb in Ha, Ho. subst a o.
    apply Matches_Plus_Class in Hl, Hd, Ht.
    exists l, d, t. simpl. auto.
  - intros (l & d & t & Hl & Hd & Ht & ->).
    constructor; [now apply Matches_Plus_Class|].
    change (at_sign :: d ++ full_stop :: t)
      with ([at_sign] ++ d ++ [full_stop] ++ t).
    constructor; [now apply Matches_Class_eqb|].
    constructor; [now apply Matches_Plus_Class|].
    constructor; [now apply Matches_Class_eqb | now apply Matches_Plus_Class].
Qed.

End AuthFacts.

(** * login *)

Module LoginFacts.
Import AuthContext AuthFacts JsFacts.

Lemma test_false_not_shape email :
  ~ local_at_domain_tld email -> test emailRegex email = false.
Proof.
  intros Hno. destruct (test emailRegex email) eqn:Ht; [|reflexivity].
  exfalso. apply Hno. now apply emailRegex_shape.
Qed.

Lemma login_invalid_format email password u :
  test emailRegex email = false ->
  login email password u = (Thrown InvalidFormat, u).
Proof. intros Ht. unfold login, bind, throw_if. now rewrite Ht. Qed.

Lemma login_weak_credential email password u :
  test emailRegex email = true -> length password < 6 ->
  login email password u = (Thrown WeakCredential, u).
Proof.
  intros Ht Hlen. unfold login, bind, throw_if. rewrite Ht. simpl.
  apply Nat.ltb_lt in Hlen. now rewrite Hlen.
Qed.

Lemma login_checked email password u :
  test emailRegex email = true -> 6 <= length password ->
  login email password u =
  if Js.eqb email admin_email && Js.eqb password admin_password
  then (Returned tt, Some {| email := email; isAdmin := true |})
  else (Thrown AuthenticationFailed, u).
Proof.
  intros Ht Hlen. unfold login, bind, throw_if. rewrite Ht. simpl.
  assert (Hl : (length password <? 6) = false) by (apply Nat.ltb_ge; lia).
  rewrite Hl. simpl. fold admin_email admin_password.
  now destruct (Js.eqb email admin_email && Js.eqb password admin_password).
Qed.

Lemma admin_pair_well_formed : well_formed admin_email admin_password.
Proof.
  split; [|vm_compute; lia].
  apply emailRegex_shape. vm_compute. reflexivity.
Qed.

Lemma login_admin_succeeds u :
  login admin_email admin_password u
  = (Returned tt, Some {| email := admin_email; isAdmin := true |}).
Proof.
  destruct admin_pair_well_formed as [Hshape Hlen].
  apply emailRegex_shape in Hshape.
  rewrite login_checked by assumption. reflexivity.
Qed.

(** Every run of [login] ends in one of its four exits. *)
Lemma login_exits email password u :
  login email password u = (Thrown InvalidFormat, u) \/
  login email password u = (Thrown WeakCredential, u) \/
  login email password u = (Thrown AuthenticationFailed, u) \/
  (email = admin_email /\ password = admin_password /\
   login email password u =
   (Returned tt, Some {| email := admin_email; isAdmin := true |})).
Proof.
  destruct (test emailRegex email) eqn:Ht.
  2:{ left. now apply login_invalid_format. }
  destruct (Nat.ltb_spec (length password) 6) as [Hlen|Hlen].
  { right; left. now apply login_weak_credential. }
  rewrite login_checked by assumption.
  destruct (Js.eqb email admin_email) eqn:He;
    destruct (Js.eqb password admin_password) eqn:Hp; simpl; auto.
  apply eqb_eq in He, Hp. subst. auto 6.
Qed.

(** C3, as stated, at a malformed e-mail with a short password: the
    password has fewer than six characters, yet [login] fails with
    InvalidFormat and not with WeakCredential, because the format of the
    e-mail is checked first. *)
Lemma login_short_password_malformed_email :
  length (lit "abc") < 6 /\
  fst (login (lit "not-an-email") (lit "abc") None) = Thrown InvalidFormat /\
  fst (login (lit "not-an-email") (lit "abc") None) <> Thrown WeakCredential.
Proof.
  split; [vm_compute; lia|]. split; [reflexivity|].
  vm_compute. discriminate.
Qed.

(** C3, amended: [login] fails with InvalidFormat when the e-mail does not
    have the [local@domain.tld] shape; with WeakCredential when the e-mail
    has that shape and the password is shorter than 6; with
    AuthenticationFailed for every well-formed pair other than the
    hardcoded one; and it succeeds for exactly the hardcoded pair, storing
    a session with [isAdmin = true]. The three errors are distinct. *)
Theorem login_outcomes (email password : jsstring) (u : option User) :
  (~ local_at_domain_tld email ->
     login email password u = (Thrown InvalidFormat, u)) /\
  (local_at_domain_tld email -> length password < 6 ->
     login email password u = (Thrown WeakCredential, u)) /\
  (well_formed email password ->
     (email, password) <> (admin_email, admin_password) ->
     login email password u = (Thrown AuthenticationFailed, u)) /\
  (login admin_email admin_password u =
     (Returned tt, Some {| email := admin_email; isAdmin := true |})) /\
  (fst (login email password u) = Returned tt ->
     email = admin_email /\ password = admin_password) /\
  (InvalidFormat <> WeakCredential /\
   InvalidFormat <> AuthenticationFailed /\
   WeakCredential <> AuthenticationFailed).
Proof.
  split; [|split; [|split; [|split; [|split; [|repeat split]]]]].
  - intros Hno. apply login_invalid_format. now apply test_false_not_shape.
  - intros Hshape Hlen. apply login_weak_credential; [|exact Hlen].
    now apply emailRegex_shape.
  - intros [Hshape Hlen] Hne. apply emailRegex_shape in Hshape.
    rewrite login_checked by assumption.
    destruct (Js.eqb email admin_email) eqn:He;
      destruct (Js.eqb password admin_password) eqn:Hp; simpl; auto.
    apply eqb_eq in He, Hp. subst. congruence.
  - destruct admin_pair_well_formed as [Hshape Hlen].
    apply emailRegex_shape in Hshape.
    rewrite login_checked by assumption. reflexivity.
  - intros Hok.
    destruct (login_exits email password u) as [H|[H|[H|(He & Hp & _)]]];
      try (rewrite H in Hok; simpl in Hok; discriminate). auto.
  - vm_compute. discriminate.
  - vm_compute. discriminate.
  - vm_compute. discriminate.
Qed.

Lemma a_b_com_shape : local_at_domain_tld (lit "a@b.com").
Proof. apply emailRegex_shape. reflexivity. Qed.

Lemma not_an_email_no_shape : ~ local_at_domain_tld (lit "not-an-email").
Proof. intros H. apply emailRegex_shape in H. discriminate H. Qed.

Lemma login_outcomes_witness :
  login (lit "not-an-email") (lit "anypassword") None = (Thrown InvalidFormat, None) /\
  login (lit "a@b.com") (lit "short") None = (Thrown WeakCredential, None) /\
  login (lit "a@b.com") (lit "longenough") None = (Thrown AuthenticationFailed, None) /\
  (admin_email = admin_email /\ admin_password = admin_password).
Proof.
  split; [|split; [|split]].
  - apply (login_outcomes (lit "not-an-email") (lit "anypassword") None).
    exact not_an_email_no_shape.
  - apply (login_outcomes (lit "a@b.com") (lit "short") None).
    + exact a_b_com_shape.
    + vm_compute; lia.
  - apply (login_outcomes (lit "a@b.com") (lit "longenough") None).
    + split; [exact a_b_com_shape | vm_compute; lia].
    + vm_compute. discriminate.
  - apply (login_outcomes admin_email admin_password None). reflexivity.
Defined.

(** C9: whenever [login] fails, by format, by password length or by a
    credential mismatch, the stored session is what it was before; only
    the success exit writes it. *)
Theorem login_failure_keeps_session (email password : jsstring)
    (u : option User) (e : Error) :
  fst (login email password u) = Thrown e ->
  snd (login email password u) = u.
Proof.
  intros Hfail.
  destruct (login_exits email password u) as [H|[H|[H|(_ & _ & H)]]];
    rewrite H in *; simpl in *; try reflexivity. discriminate.
Qed.

Lemma login_failure_keeps_session_witness :
  snd (login (lit "a@b.com") (lit "short")
         (Some {| email := admin_email; isAdmin := true |}))
  = Some {| email := admin_email; isAdmin := true |}.
Proof.
  apply (login_failure_keeps_session (lit "a@b.com") (lit "short")
           (Some {| email := admin_email; isAdmin := true |})
           (e := WeakCredential)).
  reflexivity.
Defined.

End LoginFacts.

(** * Validation at submit time *)

Module ValidationFacts.
Import Dashboard Samples.

(** The errors of the form, field by field: each entry is the result of
    that field's own rule on that field's own value. *)
Lemma validate_unfold data :
  validate data =
  match validateField (rules_of Ftitle) (title data) with
  | Some m => [(Ftitle, m)] | None => [] end ++
  match validateField (rules_of Fcategory) (category data) with
  | Some m => [(Fcategory, m)] | None => [] end ++
  match validateField (rules_of Fexcerpt) (excerpt data) with
  | Some m => [(Fexcerpt, m)] | None => [] end ++
  match validateField (rules_of Ftags) (tags data) with
  | Some m => [(Ftags, m)] | None => [] end.
Proof.
  unfold validate, registered, validateAll, field_value.
  change (validateField _ (title data))
    with (validateField (rules_of Ftitle) (title data)).
  change (validateField _ (category data))
    with (validateField (rules_of Fcategory) (category data)).
  change (validateField _ (excerpt data))
    with (validateField (rules_of Fexcerpt) (excerpt data)).
  change (validateField _ (tags data))
    with (validateField (rules_of Ftags) (tags data)).
  destruct (validateField (rules_of Ftitle) (title data));
    destruct (validateField (rules_of Fcategory) (category data));
    destruct (validateField (rules_of Fexcerpt) (excerpt data));
    destruct (validateField (rules_of Ftags) (tags data)); reflexivity.
Qed.

Lemma error_of_validate f data :
  error_of f (validate data) = validateField (rules_of f) (field_value f data).
Proof.
  rewrite validate_unfold.
  destruct f; simpl field_value;
    destruct (validateField (rules_of Ftitle) (title data));
    destruct (validateField (rules_of Fcategory) (category data));
    destruct (validateField (rules_of Fexcerpt) (excerpt data));
    destruct (validateField (rules_of Ftags) (tags data)); reflexivity.
Qed.

Lemma validate_nil_iff data :
  validate data = [] <-> forall f, error_of f (validate data) = None.
Proof.
  split.
  - intros H f. now rewrite H.
  - intros H.
    pose proof (H Ftitle) as Ht. pose proof (H Fcategory) as Hc.
    pose proof (H Fexcerpt) as He. pose proof (H Ftags) as Hg.
    rewrite error_of_validate in Ht, Hc, He, Hg. simpl field_value in *.
    rewrite validate_unfold, Ht, Hc, He, Hg. reflexivity.
Qed.

Lemma title_rule v :
  validateField (rules_of Ftitle) v = None <-> 10 <= length v.
Proof.
  destruct v as [|c r]; simpl; [split; [discriminate | lia]|].
  unfold exceeds_max, exceeds_min. simpl maxLength. simpl minLength. cbv iota beta.
  destruct (Nat.ltb_spec (length (c :: r)) 10) as [H|H]; simpl in *;
    split; try discriminate; try reflexivity; lia.
Qed.

Lemma excerpt_rule v :
  validateField (rules_of Fexcerpt) v = None <-> 1 <= length v <= 160.
Proof.
  destruct v as [|c r]; simpl; [split; [discriminate | lia]|].
  unfold exceeds_max, exceeds_min. simpl maxLength. simpl minLength. cbv iota beta.
  destruct (Nat.ltb_spec 160 (length (c :: r))) as [H|H]; simpl in *;
    split; try discriminate; try reflexivity; lia.
Qed.

Lemma required_only_rule f v :
  f = Fcategory \/ f = Ftags ->
  validateField (rules_of f) v = None <-> v <> [].
Proof.
  intros [->| ->]; destruct v; simpl; split;
    congruence || discriminate || reflexivity.
Qed.

Lemma category_is_an_option i : In (category (getValues i)) category_values.
Proof.
  simpl. destruct (category_select i); simpl; auto.
Qed.

Lemma category_rule_passes i :
  validateField (rules_of Fcategory) (category (getValues i)) = None.
Proof.
  apply required_only_rule; [auto|].
  simpl. destruct (category_select i); discriminate.
Qed.

(** What [submit] does with the verdict: the errors go on screen; with
    none, [onSubmit] runs on the values and on the image and content of
    this render; with some, nothing else happens. *)
Lemma submit_run env s :
  run (submit env) s =
  match validate (getValues (inputs s)) with
  | [] => onSubmit env (image s) (content s) (getValues (inputs s))
            {| ui := with_errors [] s; log := [] |}
  | errs => (Returned tt, {| ui := with_errors errs s; log := [] |})
  end.
Proof.
  unfold run, submit, handleSubmit, bind, get, setErrors, set_ui, modify. simpl.
  destruct (validate (getValues (inputs s))); reflexivity.
Qed.

End ValidationFacts.

(** * The publish transaction *)

Module PublishFacts.
Import Dashboard Samples ValidationFacts JsFacts.

Lemma cons_eq_app_cons {A} (a : A) l pre x post :
  a :: l = pre ++ x :: post ->
  (pre = [] /\ a = x /\ l = post) \/
  (exists pre', pre = a :: pre' /\ l = pre' ++ x :: post).
Proof.
  destruct pre as [|b pre']; simpl; intros H; inversion H; subst; eauto.
Qed.

Lemma nil_eq_app_cons {A} (pre : list A) x post : [] = pre ++ x :: post -> False.
Proof. destruct pre; discriminate. Qed.

(** Every way of cutting a list written out in full around one element. *)
Ltac cut_list H :=
  repeat
    (first
       [ apply nil_eq_app_cons in H; contradiction
       | let pre' := fresh "pre" in
         apply cons_eq_app_cons in H as [(-> & H & <-)|(pre' & -> & H)];
         [ try discriminate H; try (injection H as <- <-)
         | ] ]).

(** Run [onSubmit] by cases on what the outside answers. *)
Ltac answers env :=
  repeat match goal with
    | |- context [uploadBytes env ?p ?f] =>
        let E := fresh "Hupload" in destruct (uploadBytes env p f) eqn:E; simpl
    | |- context [getDownloadURL env ?p] =>
        let E := fresh "Hurl" in destruct (getDownloadURL env p) eqn:E; simpl
    | |- context [addDoc env ?c ?d] =>
        let E := fresh "HaddDoc" in destruct (addDoc env c d) eqn:E; simpl
    end.

Ltac run_onSubmit env :=
  unfold run, onSubmit, try_catch_finally, await_uploadBytes,
    await_getDownloadURL, await_addDoc, alert, console_error, emit, reset,
    setIsSubmitting, setContent, setImage, setImagePreview, set_ui, modify,
    bind, ret, throw;
  simpl; answers env.

Ltac in_events H :=
  unfold events in H; simpl in H;
  repeat (destruct H as [H|H]; [try discriminate H|]); try contradiction.

(** [onSubmit] catches whatever its calls throw: it always returns. *)
Lemma onSubmit_returns env img content data s :
  fst (run (onSubmit env img content data) s) = Returned tt.
Proof. destruct img as [f|]; run_onSubmit env; reflexivity. Qed.

(** C1, as stated, at a draft with a staged image: when the upload is
    rejected and when the document write is rejected the user is shown
    the same single text, so nothing that is shown to the user tells an
    upload failure from a persist failure; the handler has one [catch]
    with one message and no error classes. *)
Lemma upload_failure_alert_is_generic :
  let w_upload := snd (run (submit storage_down) draft_with_photo) in
  let w_persist := snd (run (submit firestore_down) draft_with_photo) in
  (exists path f, In (UploadBytes path f) (events w_upload) /\
                  rejected storage_down (UploadBytes path f) = true) /\
  (exists coll d, In (AddDoc coll d) (events w_persist) /\
                  rejected firestore_down (AddDoc coll d) = true) /\
  existsb (rejected firestore_down) (filter is_storage_call (events w_persist)) = false /\
  alerts (events w_upload) = [failure_text] /\
  alerts (events w_persist) = [failure_text] /\
  ~ (exists report : list jsstring -> PublishFailure,
       report (alerts (events w_upload)) = UploadFailed /\
       report (alerts (events w_persist)) = PersistFailed).
Proof.
  cbv zeta.
  assert (Hu : alerts (events (snd (run (submit storage_down) draft_with_photo)))
               = [failure_text]) by (vm_compute; reflexivity).
  assert (Hp : alerts (events (snd (run (submit firestore_down) draft_with_photo)))
               = [failure_text]) by (vm_compute; reflexivity).
  split; [|split; [|split; [|split; [|split]]]].
  - eexists _, _. split; [vm_compute; left; reflexivity | reflexivity].
  - eexists _, _. split; [vm_compute; right; right; left; reflexivity | reflexivity].
  - vm_compute. reflexivity.
  - exact Hu.
  - exact Hp.
  - intros (report & H1 & H2). rewrite Hu in H1. rewrite Hp in H2. congruence.
Qed.

(** C1, amended: in every publish transaction the storage upload comes
    strictly before the document write: a document is written only after
    the upload of the staged image has resolved, and no storage call
    follows it. When the upload is rejected no document write is
    attempted; the error of the upload is logged to the console and the
    user is shown the generic text "Error publishing article. Please try
    again.". *)
Theorem upload_precedes_write (env : Env) (img : option File)
    (content : jsstring) (data : ArticleForm) (s : State) :
  let w := snd (run (onSubmit env img content data) s) in
  (forall pre coll d post,
      events w = pre ++ AddDoc coll d :: post ->
      existsb is_storage_call post = false /\
      forall f, img = Some f ->
        In (UploadBytes (storage_path (Date_now env) f) f) pre /\
        uploadBytes env (storage_path (Date_now env) f) f = None) /\
  (forall path f err,
      In (UploadBytes path f) (events w) ->
      uploadBytes env path f = Some err ->
      documents (events w) = [] /\
      events w = [UploadBytes path f; ConsoleError failure_label err;
                  Alert failure_text]).
Proof.
  cbv zeta. split.
  - intros pre coll d post Hcut.
    destruct img as [f|]; revert Hcut; run_onSubmit env; unfold events; simpl;
      intros Hcut; cut_list Hcut;
      (split; [reflexivity|]); intros f' [= <-]; simpl; auto.
  - intros path f' err Hin Hrej.
    destruct img as [f|]; revert Hin; run_onSubmit env; intros Hin;
      in_events Hin; injection Hin as <- <-; try congruence.
    rewrite Hupload in Hrej. injection Hrej as <-.
    split; reflexivity.
Qed.

Lemma upload_precedes_write_witness :
  let w := snd (run (onSubmit storage_down (Some photo) (lit "<p>Hello</p>")
                       (getValues good_inputs)) draft_with_photo) in
  documents (events w) = [] /\
  events w = [UploadBytes (storage_path 1700000000000 photo) photo;
              ConsoleError failure_label {| message := lit "storage/unauthorized" |};
              Alert failure_text].
Proof.
  apply (upload_precedes_write storage_down (Some photo) (lit "<p>Hello</p>")
           (getValues good_inputs) draft_with_photo).
  - left. reflexivity.
  - reflexivity.
Defined.

Lemma draft_with_errors errs s : draft (with_errors errs s) = draft s.
Proof. reflexivity. Qed.

(** C2: when a submitted draft is published, the form fields, the editor
    content and the staged image with its preview are back in their
    initial empty state and the success text is shown; when the
    transaction fails, by a rejected upload, URL lookup or write, they are
    all as the user left them and the failure text is shown. A draft that
    passes validation ends in one of the two. *)
Theorem publish_resets_failure_keeps (env : Env) (s : State) :
  let w := snd (run (submit env) s) in
  (published env w = true ->
     draft (ui w) = empty_draft /\ alerts (events w) = [success_text]) /\
  (failed env w = true ->
     draft (ui w) = draft s /\ alerts (events w) = [failure_text]) /\
  (validate (getValues (inputs s)) = [] ->
     published env w = negb (failed env w)).
Proof.
  cbv zeta. rewrite submit_run.
  destruct (validate (getValues (inputs s))) as [|err errs].
  2:{ unfold published, failed, events. simpl.
      repeat split; discriminate. }
  destruct (image s) as [f|] eqn:Himg;
    (fold (run (onSubmit env (Some f) (content s) (getValues (inputs s)))
               (with_errors [] s))
     || fold (run (onSubmit env None (content s) (getValues (inputs s)))
                  (with_errors [] s)));
    run_onSubmit env; unfold published, failed, events, rejected; simpl;
    rewrite ?Hupload, ?Hurl, ?HaddDoc; simpl;
    repeat split; try discriminate; try reflexivity.
Qed.

Lemma publish_resets_failure_keeps_witness :
  (draft (ui (snd (run (submit all_fine) draft_with_photo))) = empty_draft /\
   alerts (events (snd (run (submit all_fine) draft_with_photo))) = [success_text]) /\
  (draft (ui (snd (run (submit storage_down) draft_with_photo))) = draft draft_with_photo /\
   alerts (events (snd (run (submit storage_down) draft_with_photo))) = [failure_text]) /\
  (draft (ui (snd (run (submit firestore_down) draft_with_photo))) = draft draft_with_photo /\
   alerts (events (snd (run (submit firestore_down) draft_with_photo))) = [failure_text]) /\
  published all_fine (snd (run (submit all_fine) draft_with_photo))
  = negb (failed all_fine (snd (run (submit all_fine) draft_with_photo))).
Proof.
  split; [|split; [|split]].
  - apply (publish_resets_failure_keeps all_fine draft_with_photo). reflexivity.
  - apply (publish_resets_failure_keeps storage_down draft_with_photo). reflexivity.
  - apply (publish_resets_failure_keeps firestore_down draft_with_photo). reflexivity.
  - apply (publish_resets_failure_keeps all_fine draft_with_photo). reflexivity.
Defined.

(** C6: while a submission is in flight the submit control is disabled:
    every call [onSubmit] makes, and so every wait for the outside, finds
    it disabled, and there is at least one such call. When [onSubmit] is
    done, published or failed, the control is enabled again, and
    [onSubmit] always gets there. A submission started from an enabled
    control leaves it enabled on every path, a validation failure
    included. *)
Theorem submit_control_reenabled (env : Env) (img : option File)
    (content : jsstring) (data : ArticleForm) (s : State) :
  let r := run (onSubmit env img content data) s in
  log (snd r) <> [] /\
  Forall (fun entry => submit_disabled (fst entry) = true) (log (snd r)) /\
  fst r = Returned tt /\
  submit_disabled (ui (snd r)) = false /\
  (submit_disabled s = false ->
   submit_disabled (ui (snd (run (submit env) s))) = false).
Proof.
  cbv zeta. split; [|split; [|split; [|split]]].
  - destruct img as [f|]; run_onSubmit env; discriminate.
  - destruct img as [f|]; run_onSubmit env;
      repeat (constructor; [reflexivity|]); constructor.
  - apply onSubmit_returns.
  - destruct img as [f|]; run_onSubmit env; reflexivity.
  - intros Henabled. rewrite submit_run.
    destruct (validate (getValues (inputs s))); [|exact Henabled].
    destruct (image s) as [f|];
      (fold (run (onSubmit env (Some f) (Dashboard.content s) (getValues (inputs s)))
                 (with_errors [] s))
       || fold (run (onSubmit env None (Dashboard.content s) (getValues (inputs s)))
                    (with_errors [] s)));
      run_onSubmit env; reflexivity.
Qed.

Lemma submit_control_reenabled_witness :
  submit_disabled (ui (snd (run (submit firestore_down) draft_with_photo))) = false.
Proof.
  apply (submit_control_reenabled firestore_down None [] (getValues good_inputs)
           draft_with_photo).
  reflexivity.
Defined.

(** C7: a draft submitted without a staged image makes no call to
    storage, neither an upload nor a URL lookup, and any document it
    writes has the empty string as [imageUrl]; when it passes validation
    it writes exactly one such document. *)
Theorem no_image_no_upload (env : Env) (s : State) :
  image s = None ->
  let w := snd (run (submit env) s) in
  existsb is_storage_call (events w) = false /\
  Forall (fun d => doc_imageUrl d = lit "") (documents (events w)) /\
  (validate (getValues (inputs s)) = [] ->
   exists d, documents (events w) = [d] /\ doc_imageUrl d = lit "").
Proof.
  intros Himg. cbv zeta. rewrite submit_run, Himg.
  destruct (validate (getValues (inputs s))) as [|err errs].
  2:{ unfold events. simpl. repeat split; [constructor | discriminate]. }
  fold (run (onSubmit env None (content s) (getValues (inputs s)))
            (with_errors [] s)).
  run_onSubmit env; unfold events; simpl;
    (split; [reflexivity|]);
    (split; [repeat constructor | intros _; eexists; split; reflexivity]).
Qed.

Lemma no_image_no_upload_witness :
  let w := snd (run (submit all_fine) draft_without_photo) in
  existsb is_storage_call (events w) = false /\
  exists d, documents (events w) = [d] /\ doc_imageUrl d = lit "".
Proof.
  destruct (no_image_no_upload all_fine draft_without_photo eq_refl)
    as (Hnone & _ & Hone).
  split; [exact Hnone | apply Hone; reflexivity].
Defined.

(** The digits of [number_to_string] read back as the number. *)
Lemma decimal_reads_back n :
  option_map Z.of_int (NilZero.int_of_string (decimal n)) = Some n.
Proof.
  unfold decimal. rewrite NilZero.isi.
  - simpl. now rewrite DecimalZ.of_to.
  - destruct n; simpl; try discriminate.
    intros [= H]. now apply DecimalPos.Unsigned.to_uint_nonnil in H.
  - destruct n; simpl; try discriminate.
    intros [= H]. now apply DecimalPos.Unsigned.to_uint_nonnil in H.
Qed.

(** C8: a publish with a staged image uploads its bytes once, under the
    key "articles/", then [Date.now()] written as a whole number in
    decimal, then a hyphen, then the file's own name; the URL is looked up
    under the same key. *)
Theorem storage_key_format (env : Env) (s : State) (f : File) :
  image s = Some f ->
  validate (getValues (inputs s)) = [] ->
  let w := snd (run (submit env) s) in
  let key := lit "articles/" ++ number_to_string (Date_now env)
               ++ lit "-" ++ name f in
  (exists rest, events w = UploadBytes key f :: rest /\
                forall p g, ~ In (UploadBytes p g) rest) /\
  (forall p, In (GetDownloadURL p) (events w) -> p = key) /\
  number_to_string (Date_now env) = lit (decimal (Date_now env)) /\
  option_map Z.of_int (NilZero.int_of_string (decimal (Date_now env)))
  = Some (Date_now env).
Proof.
  intros Himg Hvalid. cbv zeta. rewrite submit_run, Himg, Hvalid.
  fold (run (onSubmit env (Some f) (content s) (getValues (inputs s)))
            (with_errors [] s)).
  split; [|split; [|split]].
  - run_onSubmit env; unfold events; simpl; eexists; (split; [reflexivity|]);
      intros p g Hin; simpl in Hin;
      repeat (destruct Hin as [Hin|Hin]; [discriminate Hin|]); exact Hin.
  - intros p. run_onSubmit env; intros Hin; in_events Hin;
      injection Hin as <-; reflexivity.
  - reflexivity.
  - apply decimal_reads_back.
Qed.

Lemma storage_key_format_witness :
  exists rest,
    events (snd (run (submit all_fine) draft_with_photo))
    = UploadBytes (lit "articles/1700000000000-sofa.png") photo :: rest /\
    forall p g, ~ In (UploadBytes p g) rest.
Proof.
  apply (storage_key_format all_fine draft_with_photo (f := photo));
    reflexivity.
Defined.

(** C4: the tags a publish persists are the pieces of the raw string
    between its commas, each trimmed, in the order of the raw string.
    Nothing is dropped or merged: the pieces joined by commas give the raw
    string back, none contains a comma, there is one more tag than there
    are commas, and each tag is its piece without the white space around
    it. So "a, b ,c" gives a, b, c; ",a," gives an empty tag on either
    side of a; "a,a" gives a twice. *)
Theorem persisted_tags (env : Env) (img : option File) (content : jsstring)
    (data : ArticleForm) (s : State) :
  let raw := tags data in
  let pieces := split comma raw in
  Forall (fun d => doc_tags d = map trim pieces)
    (documents (events (snd (run (onSubmit env img content data) s)))) /\
  (exists d, documents (events (snd (run (onSubmit env None content data) s))) = [d]) /\
  join comma pieces = raw /\
  Forall (fun p => ~ In comma p) pieces /\
  (forall ps, ps <> [] -> Forall (fun p => ~ In comma p) ps ->
              join comma ps = raw -> ps = pieces) /\
  length (map trim pieces) = S (count_occ N.eq_dec raw comma) /\
  (forall i, nth i (map trim pieces) [] = trim (nth i pieces [])) /\
  Forall (fun p => exists l r, p = l ++ trim p ++ r /\ blank l /\ blank r /\
                               starts_solid (trim p) /\
                               starts_solid (rev (trim p))) pieces /\
  map trim (split comma (lit "a, b ,c")) = [lit "a"; lit "b"; lit "c"] /\
  map trim (split comma (lit ",a,")) = [lit ""; lit "a"; lit ""] /\
  map trim (split comma (lit "a,a")) = [lit "a"; lit "a"].
Proof.
  cbv zeta. repeat match goal with |- _ /\ _ => split end.
  - destruct img as [f|]; run_onSubmit env; unfold events; simpl;
      repeat constructor.
  - run_onSubmit env; unfold events; simpl; eexists; reflexivity.
  - apply join_split.
  - apply split_pieces_free.
  - intros ps Hne Hfree <-. symmetry. now apply split_join.
  - rewrite length_map. apply split_length.
  - intros i. change (@nil char) with (trim []) at 1. apply map_nth.
  - apply Forall_forall. intros p _. apply trim_spec.
  - reflexivity.
  - reflexivity.
  - reflexivity.
Qed.

Lemma persisted_tags_witness :
  [lit "a"; lit " b "; lit "c"] = split comma (tags (getValues good_inputs)).
Proof.
  destruct (persisted_tags all_fine None [] (getValues good_inputs)
              draft_without_photo) as (_ & _ & _ & _ & Hunique & _).
  apply Hunique.
  - discriminate.
  - repeat constructor; vm_compute; intuition discriminate.
  - reflexivity.
Defined.

(** *** The preview *)

Lemma map_indexed_text i l :
  map ArticlePreview.text
    (ArticlePreview.map_indexed
       (fun tag index => {| ArticlePreview.key := index;
                            ArticlePreview.text := trim tag |}) i l)
  = map trim l.
Proof.
  revert i. induction l as [|x r IH]; intros i; simpl; [reflexivity|].
  now rewrite IH.
Qed.

Lemma map_indexed_key i l :
  map ArticlePreview.key
    (ArticlePreview.map_indexed
       (fun tag index => {| ArticlePreview.key := index;
                            ArticlePreview.text := trim tag |}) i l)
  = seq i (length l).
Proof.
  revert i. induction l as [|x r IH]; intros i; simpl; [reflexivity|].
  now rewrite IH.
Qed.

(** C10: for every raw tags string, the texts of the chips the preview
    shows are, element for element and in order, the tags a publish of the
    same raw value persists; the chips are keyed 0, 1, 2, ... *)
Theorem preview_chips_are_persisted_tags (env : Env) (img : option File)
    (content : jsstring) (data : ArticleForm) (s : State) :
  let shown := ArticlePreview.chips (Some (tags data)) in
  Forall (fun d => doc_tags d = map ArticlePreview.text shown)
    (documents (events (snd (run (onSubmit env img content data) s)))) /\
  (exists d,
     documents (events (snd (run (onSubmit env None content data) s))) = [d] /\
     doc_tags d = map ArticlePreview.text shown) /\
  Forall (fun d => doc_tags d
                   = map ArticlePreview.text
                       (ArticlePreview.chips (Some (tags_input (inputs s)))))
    (documents (events (snd (run (submit env) s)))) /\
  map ArticlePreview.key shown = seq 0 (length (split comma (tags data))).
Proof.
  cbv zeta. unfold ArticlePreview.chips. rewrite !map_indexed_text.
  split; [|split; [|split]].
  - destruct img as [f|]; run_onSubmit env; unfold events; simpl;
      repeat constructor.
  - run_onSubmit env; unfold events; simpl; eexists; split; reflexivity.
  - rewrite submit_run.
    destruct (validate (getValues (inputs s))); [|constructor].
    destruct (image s) as [f|];
      (fold (run (onSubmit env (Some f) (Dashboard.content s) (getValues (inputs s)))
                 (with_errors [] s))
       || fold (run (onSubmit env None (Dashboard.content s) (getValues (inputs s)))
                    (with_errors [] s)));
      run_onSubmit env; unfold events; simpl; repeat constructor.
  - apply map_indexed_key.
Qed.

(** *** Validation and the decision to publish *)

Lemma onSubmit_calls_out env img content data s :
  events (snd (run (onSubmit env img content data) s)) <> [].
Proof. destruct img as [f|]; run_onSubmit env; discriminate. Qed.

Lemma onSubmit_clears_errors env img content data s :
  errors s = [] ->
  errors (ui (snd (run (onSubmit env img content data) s))) = [].
Proof. intros H. destruct img as [f|]; run_onSubmit env; auto. Qed.

(** C5: at submit time every registered field is checked by its own rule
    on its own value and all failures are shown together: the title must
    have at least 10 characters, the category is one of the four options,
    the excerpt between 1 and 160 characters, the raw tags must not be
    empty; the content is not looked at, and a draft with empty content
    publishes. [onSubmit] runs exactly when no rule fails. A draft whose
    only defect is a title of 9 characters has the title's error and no
    other. *)
Theorem validation_at_submit (env : Env) (s : State) :
  let data := getValues (inputs s) in
  let errs := validate data in
  let w := snd (run (submit env) s) in
  (forall f, error_of f errs = validateField (rules_of f) (field_value f data)) /\
  errors (ui w) = errs /\
  (error_of Ftitle errs = None <-> 10 <= length (title_input (inputs s))) /\
  (error_of Fcategory errs = None /\ In (category data) category_values) /\
  (error_of Fexcerpt errs = None <->
     1 <= length (excerpt_input (inputs s)) <= 160) /\
  (error_of Ftags errs = None <-> tags_input (inputs s) <> []) /\
  (forall c, validate (getValues (inputs (with_content c s))) = errs) /\
  (events w <> [] <-> forall f, error_of f errs = None) /\
  (length (title_input (inputs s)) = 9 ->
   1 <= length (excerpt_input (inputs s)) <= 160 ->
   tags_input (inputs s) <> [] ->
   errs = [(Ftitle, title_too_short)]) /\
  validate (getValues initial_inputs)
  = [(Ftitle, lit "Title is required");
     (Fexcerpt, lit "Excerpt is required");
     (Ftags, lit "At least one tag is required")] /\
  published all_fine
    (snd (run (submit all_fine) (with_content (lit "") draft_without_photo)))
  = true.
Proof.
  cbv zeta.
  split; [|split; [|split; [|split; [|split; [|split; [|split; [|split;
    [|split; [|split]]]]]]]]].
  - intros f. apply error_of_validate.
  - rewrite submit_run.
    destruct (validate (getValues (inputs s))) as [|e es] eqn:Hv; [|reflexivity].
    fold (run (onSubmit env (image s) (content s) (getValues (inputs s)))
              (with_errors [] s)).
    now apply onSubmit_clears_errors.
  - rewrite error_of_validate. apply title_rule.
  - split; [|apply category_is_an_option].
    rewrite error_of_validate. apply category_rule_passes.
  - rewrite error_of_validate. apply excerpt_rule.
  - rewrite error_of_validate. apply (required_only_rule (f := Ftags)). auto.
  - reflexivity.
  - rewrite <- validate_nil_iff, submit_run.
    destruct (validate (getValues (inputs s))) as [|e es] eqn:Hv.
    + fold (run (onSubmit env (image s) (content s) (getValues (inputs s)))
                (with_errors [] s)).
      split; [reflexivity|]. intros _. apply onSubmit_calls_out.
    + unfold events. simpl. split; [congruence | discriminate].
  - intros Htitle Hexcerpt Htags. rewrite validate_unfold.
    rewrite category_rule_passes.
    apply excerpt_rule in Hexcerpt. simpl excerpt in *. rewrite Hexcerpt.
    apply (required_only_rule (f := Ftags)) in Htags; [|auto].
    simpl tags in *. rewrite Htags. simpl title.
    destruct (title_input (inputs s)) as [|c r] eqn:Ht; [discriminate|].
    unfold validateField, exceeds_max, exceeds_min. simpl maxLength.
    simpl minLength. cbv iota beta. rewrite Htitle. reflexivity.
  - reflexivity.
  - vm_compute. reflexivity.
Qed.

Lemma validation_at_submit_witness :
  validate (getValues nine_title_inputs) = [(Ftitle, title_too_short)].
Proof.
  destruct (validation_at_submit all_fine
              (with_errors [] {| inputs := nine_title_inputs; errors := [];
                                 image := None; imagePreview := [];
                                 isSubmitting := false; showPreview := false;
                                 content := [] |}))
    as (_ & _ & _ & _ & _ & _ & _ & _ & Hnine & _).
  apply Hnine.
  - reflexivity.
  - vm_compute. lia.
  - discriminate.
Defined.

End PublishFacts.

(** * More on the session *)

Module SessionFacts.
Import AuthContext Session LoginFacts AuthFacts JsFacts.

Lemma after_app calls calls' u :
  after (calls ++ calls') u = after calls' (after calls u).
Proof.
  revert u. induction calls as [|c rest IH]; intros u; simpl; [reflexivity|].
  apply IH.
Qed.

Lemma call_keeps_admin c u :
  u = None \/ u = Some admin_session ->
  snd (call c u) = None \/ snd (call c u) = Some admin_session.
Proof.
  intros Hu. destruct c as [email password|]; simpl.
  - destruct (login_exits email password u) as [H|[H|[H|(_ & _ & H)]]];
      rewrite H; simpl; auto.
  - left. reflexivity.
Qed.

(** X1: whatever calls to [login] and [logout] are made, in whatever
    order and however many of them fail, the stored session is either
    absent or the admin's, with [isAdmin = true]; it is absent after a
    final [logout] and the admin's after a final [login] with the
    hardcoded pair. *)
Theorem session_absent_or_admin (calls : list AuthCall) :
  (after calls None = None \/ after calls None = Some admin_session) /\
  after (calls ++ [Logout]) None = None /\
  after (calls ++ [Login admin_email admin_password]) None = Some admin_session.
Proof.
  assert (Hinv : forall cs u, u = None \/ u = Some admin_session ->
                   after cs u = None \/ after cs u = Some admin_session).
  { induction cs as [|c rest IH]; intros u Hu; simpl; [exact Hu|].
    apply IH. now apply call_keeps_admin. }
  split; [apply Hinv; auto|]. split.
  - rewrite after_app. reflexivity.
  - rewrite after_app. cbn [after call].
    now rewrite login_admin_succeeds.
Qed.

Lemma part_plain s :
  Forall (fun c => not_space_or_at c = true) s ->
  count_occ N.eq_dec s at_sign = 0 /\
  Forall (fun c => is_white_space c = false) s.
Proof.
  induction 1 as [|c r Hc _ [IHn IHw]]; simpl; [split; [reflexivity | constructor]|].
  unfold not_space_or_at in Hc. apply negb_true_iff, orb_false_iff in Hc.
  destruct Hc as [Hw Ha]. apply N.eqb_neq in Ha.
  destruct (N.eq_dec c at_sign); [congruence|].
  split; [exact IHn | constructor; assumption].
Qed.

Lemma accepted_email_plain s :
  test emailRegex s = true ->
  count_occ N.eq_dec s at_sign = 1 /\
  Forall (fun c => is_white_space c = false) s /\
  5 <= length s.
Proof.
  intros H. apply emailRegex_shape in H.
  destruct H as (l & d & t & [Hl Pl] & [Hd Pd] & [Ht Pt] & ->).
  apply part_plain in Pl as [Nl Wl], Pd as [Nd Wd], Pt as [Nt Wt].
  split; [|split].
  - rewrite count_occ_app, count_occ_cons_eq by reflexivity.
    rewrite count_occ_app, count_occ_cons_neq by discriminate.
    unfold jsstring, char in *. rewrite Nl, Nd, Nt. reflexivity.
  - apply Forall_app. split; [exact Wl|].
    constructor; [reflexivity|].
    apply Forall_app. split; [exact Wd|].
    constructor; [reflexivity | exact Wt].
  - rewrite length_app. simpl. rewrite length_app. simpl.
    destruct l; [congruence|]. destruct d; [congruence|].
    destruct t; [congruence|]. simpl. lia.
Qed.

(** X2: an e-mail that [login] lets past its format check has exactly one
    [@], no white space anywhere and at least five code units; so an
    address with a leading or trailing blank, with two [@] or shorter than
    five is refused with InvalidFormat whatever the password, and the
    session is left alone. *)
Theorem malformed_email_refused (email password : jsstring) (u : option User) :
  count_occ N.eq_dec email at_sign <> 1 \/
  Exists (fun c => is_white_space c = true) email \/
  length email < 5 ->
  login email password u = (Thrown InvalidFormat, u).
Proof.
  intros Hbad. apply login_invalid_format.
  destruct (test emailRegex email) eqn:Ht; [|reflexivity].
  exfalso. apply accepted_email_plain in Ht as (Hone & Hplain & Hlen).
  destruct Hbad as [H|[H|H]]; [congruence | | lia].
  apply Exists_exists in H as (c & Hin & Hc).
  rewrite Forall_forall in Hplain. specialize (Hplain c Hin). congruence.
Qed.

Lemma malformed_email_refused_witness :
  login (lit " admin@easyfindshub.com") admin_password None
  = (Thrown InvalidFormat, None).
Proof.
  apply (@malformed_email_refused (lit " admin@easyfindshub.com")
           admin_password None).
  right; left. constructor. reflexivity.
Defined.

End SessionFacts.

(** * The shell *)

Module ShellFacts.
Import AuthContext Shell.

(** X3: [handleLogout] never throws. It navigates to "/login" when, and
    only after, the context's [logout] has resolved; when [logout]
    rejects it stays where it is and logs that error. With the
    provider's own [logout] it always ends with no session and at
    "/login". *)
Theorem handleLogout_outcomes (logout : M World unit) (w : World) :
  fst (handleLogout logout w) = Returned tt /\
  (forall w', logout w = (Returned tt, w') ->
     snd (handleLogout logout w)
     = {| user := user w'; trail := trail w' ++ [Navigate (lit "/login")] |}) /\
  (forall e w', logout w = (Thrown e, w') ->
     snd (handleLogout logout w)
     = {| user := user w';
          trail := trail w' ++ [LogError (lit "Logout failed:") e] |}) /\
  snd (handleLogout (of_context AuthContext.logout) w)
  = {| user := None; trail := trail w ++ [Navigate (lit "/login")] |}.
Proof.
  unfold handleLogout, try_catch, bind, navigate, console_error, modify.
  split; [|split; [|split]].
  - destruct (logout w) as [[[]|e] w']; reflexivity.
  - intros w' ->. reflexivity.
  - intros e w' ->. reflexivity.
  - reflexivity.
Qed.

Lemma handleLogout_outcomes_witness :
  snd (handleLogout (throw {| message := lit "offline" |})
         {| user := Some Session.admin_session; trail := [] |})
  = {| user := Some Session.admin_session;
       trail := [LogError (lit "Logout failed:") {| message := lit "offline" |}] |}.
Proof.
  destruct (handleLogout_outcomes (throw {| message := lit "offline" |})
              {| user := Some Session.admin_session; trail := [] |})
    as (_ & _ & Hrejected & _).
  apply (Hrejected {| message := lit "offline" |}
           {| user := Some Session.admin_session; trail := [] |}).
  reflexivity.
Defined.

End ShellFacts.

(** * More on publishing *)

Module MorePublishFacts.
Import Dashboard Samples ValidationFacts JsFacts PublishFacts.

(** What [onSubmit] sends out and completes with is fixed by its
    arguments and the answers; the state it starts from plays no part. *)
Lemma onSubmit_events_any_state env img content data s s' :
  events (snd (run (onSubmit env img content data) s))
  = events (snd (run (onSubmit env img content data) s')).
Proof. destruct img as [f|]; run_onSubmit env; reflexivity. Qed.

Lemma submit_events env s :
  events (snd (run (submit env) s)) =
  match validate (getValues (inputs s)) with
  | [] => events (snd (run (onSubmit env (image s) (content s)
                              (getValues (inputs s))) s))
  | _ :: _ => []
  end.
Proof.
  rewrite submit_run.
  destruct (validate (getValues (inputs s))); [|reflexivity].
  apply (onSubmit_events_any_state env (image s) (content s)
           (getValues (inputs s)) (with_errors [] s) s).
Qed.

(** The state [onSubmit] leaves behind, by how the run went. *)
Lemma onSubmit_final env img content data s :
  let w := snd (run (onSubmit env img content data) s) in
  (published env w = true /\ failed env w = false /\
   ui w = with_isSubmitting false
            (with_imagePreview [] (with_image None (with_content []
               (with_form_reset (with_isSubmitting true s)))))) \/
  (published env w = false /\ failed env w = true /\
   ui w = with_isSubmitting false (with_isSubmitting true s)).
Proof.
  cbv zeta. destruct img as [f|]; run_onSubmit env;
    unfold published, failed, events, rejected; simpl;
    rewrite ?Hupload, ?Hurl, ?HaddDoc; simpl; auto.
Qed.

Lemma submit_final env s :
  validate (getValues (inputs s)) = [] ->
  let w := snd (run (submit env) s) in
  (published env w = true /\ failed env w = false /\
   ui w = with_isSubmitting false
            (with_imagePreview [] (with_image None (with_content []
               (with_form_reset (with_isSubmitting true (with_errors [] s))))))) \/
  (published env w = false /\ failed env w = true /\
   ui w = with_isSubmitting false (with_isSubmitting true (with_errors [] s))).
Proof.
  intros Hvalid. cbv zeta. rewrite submit_run, Hvalid.
  apply (onSubmit_final env (image s) (content s) (getValues (inputs s))
           (with_errors [] s)).
Qed.

Lemma submit_invalid env s :
  validate (getValues (inputs s)) <> [] ->
  run (submit env) s
  = (Returned tt,
     {| ui := with_errors (validate (getValues (inputs s))) s; log := [] |}).
Proof.
  intros Hbad. rewrite submit_run.
  destruct (validate (getValues (inputs s))); [congruence | reflexivity].
Qed.

Lemma publish_draft_frame env s s' :
  inputs s = inputs s' -> image s = image s' -> content s = content s' ->
  events (snd (run (submit env) s)) = events (snd (run (submit env) s')).
Proof.
  intros Hi Hf Hc. rewrite !submit_events, Hi, Hf, Hc.
  destruct (validate (getValues (inputs s'))); [|reflexivity].
  apply onSubmit_events_any_state.
Qed.

(** X4: what a submission sends to Storage and Firestore, and what it
    tells the user, depends on the form fields, the staged file and the
    editor content only: the data-URL preview, the preview toggle, the
    errors on screen and the submitting flag never reach a call. *)
Theorem publish_depends_on_draft_only (env : Env) (s s' : State) :
  inputs s = inputs s' -> image s = image s' -> content s = content s' ->
  events (snd (run (submit env) s)) = events (snd (run (submit env) s')).
Proof. apply publish_draft_frame. Qed.

Lemma publish_depends_on_draft_only_witness :
  events (snd (run (submit all_fine) draft_with_photo))
  = events (snd (run (submit all_fine)
                   (with_imagePreview (lit "data:text/plain,other")
                      draft_with_photo))).
Proof.
  apply (publish_depends_on_draft_only all_fine draft_with_photo
           (with_imagePreview (lit "data:text/plain,other") draft_with_photo));
    reflexivity.
Defined.

(** X5: a publish stops at the first call that is rejected: no call
    before it was rejected, and after it come only the console entry
    carrying that call's own error and the failure alert; no further
    call to Storage or Firestore is made. *)
Theorem first_rejection_ends_the_run (env : Env) (img : option File)
    (content : jsstring) (data : ArticleForm) (s : State)
    (pre post : list Event) (e : Event) (err : Error) :
  events (snd (run (onSubmit env img content data) s)) = pre ++ e :: post ->
  rejection env e = Some err ->
  existsb (rejected env) pre = false /\
  post = [ConsoleError failure_label err; Alert failure_text].
Proof.
  destruct img as [f|]; run_onSubmit env; unfold events; simpl;
    intros Hcut Hrej; cut_list Hcut; subst; simpl in Hrej;
    try discriminate Hrej;
    rewrite ?Hupload, ?Hurl, ?HaddDoc in Hrej; try discriminate Hrej;
    injection Hrej as <-;
    unfold rejected; simpl; rewrite ?Hupload, ?Hurl, ?HaddDoc;
    split; reflexivity.
Qed.

Lemma first_rejection_ends_the_run_witness :
  existsb (rejected firestore_down)
    [UploadBytes (storage_path 1700000000000 photo) photo;
     GetDownloadURL (storage_path 1700000000000 photo)] = false /\
  [ConsoleError failure_label {| message := lit "permission-denied" |};
   Alert failure_text]
  = [ConsoleError failure_label {| message := lit "permission-denied" |};
     Alert failure_text].
Proof.
  apply (@first_rejection_ends_the_run firestore_down (Some photo)
           (lit "<p>Hello</p>") (getValues good_inputs) draft_with_photo
           [UploadBytes (storage_path 1700000000000 photo) photo;
            GetDownloadURL (storage_path 1700000000000 photo)]
           [ConsoleError failure_label {| message := lit "permission-denied" |};
            Alert failure_text]
           (AddDoc (lit "articles")
                   {| doc_title := lit "Ten cosy sofas";
                      doc_category := lit "home-decor";
                      doc_excerpt := lit "Sofas we like.";
                      doc_content := lit "<p>Hello</p>";
                      doc_imageUrl :=
                        lit "https://storage.example/articles/1700000000000-sofa.png";
                      doc_tags := [lit "a"; lit "b"; lit "c"];
                      doc_createdAt := lit "2023-11-14T22:13:20.000Z" |})
           {| message := lit "permission-denied" |});
    reflexivity.
Defined.

(** The documents of a run, read off the answers. *)
Lemma onSubmit_documents env img content data s :
  documents (events (snd (run (onSubmit env img content data) s))) =
  let doc url :=
    {| doc_title := title data; doc_category := category data;
       doc_excerpt := excerpt data; doc_content := content;
       doc_imageUrl := url;
       doc_tags := map trim (split comma (tags data));
       doc_createdAt := toISOString_now env |} in
  match img with
  | None => [doc (lit "")]
  | Some f =>
      match uploadBytes env (storage_path (Date_now env) f) f with
      | Some _ => []
      | None =>
          match getDownloadURL env (storage_path (Date_now env) f) with
          | inl _ => []
          | inr url => [doc url]
          end
      end
  end.
Proof. destruct img as [f|]; run_onSubmit env; reflexivity. Qed.

(** X6: a submission writes at most one document. The document carries
    the form values as typed, the editor content, the clock's ISO string
    and, for a staged image, exactly the URL that [getDownloadURL]
    resolved for the key the bytes were uploaded under. When validation
    passes and upload and URL lookup resolve, that document is written. *)
Theorem document_carries_the_draft (env : Env) (s : State) (f : File)
    (url : jsstring) :
  let docs := documents (events (snd (run (submit env) s))) in
  let key := storage_path (Date_now env) f in
  length docs <= 1 /\
  Forall (fun d =>
            doc_title d = title_input (inputs s) /\
            doc_category d = option_value (category_select (inputs s)) /\
            doc_excerpt d = excerpt_input (inputs s) /\
            doc_content d = content s /\
            doc_createdAt d = toISOString_now env /\
            (image s = Some f -> getDownloadURL env key = inr (doc_imageUrl d)))
         docs /\
  (image s = Some f ->
   validate (getValues (inputs s)) = [] ->
   uploadBytes env key f = None ->
   getDownloadURL env key = inr url ->
   exists d, docs = [d] /\ doc_imageUrl d = url).
Proof.
  cbv zeta. rewrite submit_events.
  destruct (validate (getValues (inputs s))) as [|bad rest] eqn:Hv.
  2:{ simpl. repeat split; [lia | constructor | discriminate]. }
  rewrite onSubmit_documents.
  destruct (image s) as [g|] eqn:Himg.
  - destruct (uploadBytes env (storage_path (Date_now env) g) g) eqn:Hup.
    { repeat split; [simpl; lia | constructor | intros [= <-]; congruence]. }
    destruct (getDownloadURL env (storage_path (Date_now env) g)) as [e|u] eqn:Hu.
    { repeat split; [simpl; lia | constructor | intros [= <-]; congruence]. }
    split; [simpl; lia|]. split.
    + repeat constructor. simpl. intros [= <-]. exact Hu.
    + intros [= <-] _ _ Hurl. rewrite Hu in Hurl. injection Hurl as <-.
      eexists; split; reflexivity.
  - split; [simpl; lia|]. split; [|discriminate].
    repeat constructor. discriminate.
Qed.

Lemma document_carries_the_draft_witness :
  exists d,
    documents (events (snd (run (submit all_fine) draft_with_photo))) = [d] /\
    doc_imageUrl d
    = lit "https://storage.example/articles/1700000000000-sofa.png".
Proof.
  apply (document_carries_the_draft all_fine draft_with_photo photo
           (lit "https://storage.example/articles/1700000000000-sofa.png"));
    reflexivity.
Defined.

(** X7: validation guards the store: every document a submission writes
    has a title of at least 10 code units, one of the four category
    values, an excerpt of 1 to 160 code units and at least one tag, and
    was cut from a non-empty raw tags string. *)
Theorem documents_satisfy_the_rules (env : Env) (s : State) :
  Forall (fun d =>
            10 <= length (doc_title d) /\
            In (doc_category d) category_values /\
            1 <= length (doc_excerpt d) <= 160 /\
            doc_tags d <> [] /\
            tags_input (inputs s) <> [] /\
            doc_tags d = map trim (split comma (tags_input (inputs s))))
         (documents (events (snd (run (submit env) s)))).
Proof.
  rewrite submit_events.
  destruct (validate (getValues (inputs s))) as [|bad rest] eqn:Hv;
    [|constructor].
  assert (Hrules : forall f, error_of f (validate (getValues (inputs s))) = None)
    by (now apply validate_nil_iff).
  pose proof (Hrules Ftitle) as Ht. pose proof (Hrules Fexcerpt) as He.
  pose proof (Hrules Ftags) as Hg.
  rewrite error_of_validate in Ht, He, Hg. simpl field_value in *.
  apply title_rule in Ht. apply excerpt_rule in He.
  apply (required_only_rule (f := Ftags)) in Hg; [|auto].
  pose proof (category_is_an_option (inputs s)) as Hc. simpl category in Hc.
  assert (Hne : map trim (split comma (tags_input (inputs s))) <> []).
  { pose proof (split_not_nil comma (tags_input (inputs s))) as Hs.
    destruct (split comma (tags_input (inputs s))); [congruence | discriminate]. }
  rewrite onSubmit_documents. cbv zeta.
  assert (Hdoc : forall url,
    Forall (fun d =>
              10 <= length (doc_title d) /\
              In (doc_category d) category_values /\
              1 <= length (doc_excerpt d) <= 160 /\
              doc_tags d <> [] /\
              tags_input (inputs s) <> [] /\
              doc_tags d = map trim (split comma (tags_input (inputs s))))
      [{| doc_title := title (getValues (inputs s));
          doc_category := category (getValues (inputs s));
          doc_excerpt := excerpt (getValues (inputs s));
          doc_content := content s; doc_imageUrl := url;
          doc_tags := map trim (split comma (tags (getValues (inputs s))));
          doc_createdAt := toISOString_now env |}]).
  { intros url. constructor; [|constructor]. simpl. auto 7. }
  destruct (image s) as [g|]; [|apply Hdoc].
  destruct (uploadBytes env (storage_path (Date_now env) g) g); [constructor|].
  destruct (getDownloadURL env (storage_path (Date_now env) g));
    [constructor | apply Hdoc].
Qed.

(** X8: a failed publish can be retried as it stands: submitting again
    from the state the failure left makes exactly the calls a first
    submission of the same draft would make under the new answers. *)
Theorem retry_after_failure (env env' : Env) (s : State) :
  failed env (snd (run (submit env) s)) = true ->
  events (snd (run (submit env') (ui (snd (run (submit env) s)))))
  = events (snd (run (submit env') s)).
Proof.
  intros Hfailed.
  destruct (validate (getValues (inputs s))) as [|bad rest] eqn:Hv.
  - destruct (submit_final env s Hv) as [(_ & Hno & _)|(_ & _ & Hui)];
      [congruence|].
    apply publish_draft_frame; rewrite Hui; reflexivity.
  - rewrite submit_invalid in Hfailed by congruence. discriminate Hfailed.
Qed.

Lemma retry_after_failure_witness :
  events (snd (run (submit all_fine)
                 (ui (snd (run (submit storage_down) draft_with_photo)))))
  = events (snd (run (submit all_fine) draft_with_photo)).
Proof.
  apply (retry_after_failure storage_down all_fine draft_with_photo).
  reflexivity.
Defined.

(** X9: after a publish went through, submitting again without typing
    anything sends nothing: the emptied form fails validation, the three
    "required" messages appear, no call is made and the submit control
    stays enabled. *)
Theorem resubmit_after_publish_sends_nothing (env env' : Env) (s : State) :
  published env (snd (run (submit env) s)) = true ->
  let again := snd (run (submit env') (ui (snd (run (submit env) s)))) in
  log again = [] /\
  errors (ui again)
  = [(Ftitle, lit "Title is required");
     (Fexcerpt, lit "Excerpt is required");
     (Ftags, lit "At least one tag is required")] /\
  draft (ui again) = empty_draft /\
  submit_disabled (ui again) = false.
Proof.
  intros Hpub. cbv zeta.
  destruct (validate (getValues (inputs s))) as [|bad rest] eqn:Hv.
  - destruct (submit_final env s Hv) as [(_ & _ & Hui)|(Hno & _ & _)];
      [|congruence].
    rewrite Hui, submit_invalid by (vm_compute; discriminate).
    repeat split.
  - rewrite submit_invalid in Hpub by congruence. discriminate Hpub.
Qed.

Lemma resubmit_after_publish_sends_nothing_witness :
  log (snd (run (submit all_fine)
              (ui (snd (run (submit all_fine) draft_with_photo))))) = [].
Proof.
  apply (resubmit_after_publish_sends_nothing all_fine all_fine
           draft_with_photo).
  reflexivity.
Defined.

(** X16: which message a field shows. An empty title shows "Title is
    required", a title of 1 to 9 code units the minimum-length message;
    an empty excerpt shows "Excerpt is required", one over 160 the
    maximum-length message, while exactly 160 passes although that
    message says "less than 160"; empty tags show "At least one tag is
    required"; the category never shows a message. No field ever shows
    another field's message. *)
Theorem validation_messages (i : Inputs) :
  let errs := validate (getValues i) in
  (title_input i = [] -> error_of Ftitle errs = Some (lit "Title is required")) /\
  (1 <= length (title_input i) < 10 ->
     error_of Ftitle errs = Some title_too_short) /\
  (excerpt_input i = [] ->
     error_of Fexcerpt errs = Some (lit "Excerpt is required")) /\
  (160 < length (excerpt_input i) ->
     error_of Fexcerpt errs
     = Some (lit "Excerpt must be less than 160 characters")) /\
  (length (excerpt_input i) = 160 -> error_of Fexcerpt errs = None) /\
  (tags_input i = [] ->
     error_of Ftags errs = Some (lit "At least one tag is required")) /\
  error_of Fcategory errs = None /\
  (forall f m, In (f, m) errs ->
     error_of f errs = Some m /\
     In m (match f with
           | Ftitle => [lit "Title is required"; title_too_short]
           | Fcategory => []
           | Fexcerpt => [lit "Excerpt is required";
                          lit "Excerpt must be less than 160 characters"]
           | Ftags => [lit "At least one tag is required"]
           end)).
Proof.
  cbv zeta. rewrite !error_of_validate. simpl field_value.
  split; [|split; [|split; [|split; [|split; [|split; [|split]]]]]].
  - intros ->. reflexivity.
  - intros Hlen. destruct (title_input i) as [|c r]; [simpl in Hlen; lia|].
    unfold validateField, exceeds_max, exceeds_min. simpl maxLength.
    simpl minLength. cbv iota beta.
    destruct (Nat.ltb_spec (length (c :: r)) 10);
      [reflexivity | unfold jsstring, char in *; lia].
  - intros ->. reflexivity.
  - intros Hlen. destruct (excerpt_input i) as [|c r]; [simpl in Hlen; lia|].
    unfold validateField, exceeds_max. simpl maxLength. cbv iota beta.
    destruct (Nat.ltb_spec 160 (length (c :: r)));
      [reflexivity | unfold jsstring, char in *; lia].
  - intros Hlen. apply excerpt_rule. unfold jsstring, char in *. lia.
  - intros ->. reflexivity.
  - apply category_rule_passes.
  - intros f m Hin. rewrite validate_unfold in Hin.
    rewrite error_of_validate.
    rewrite category_rule_passes in Hin. simpl in Hin.
    assert (Htitle : forall m', validateField (rules_of Ftitle) (title_input i) = Some m' ->
                                In m' [lit "Title is required"; title_too_short]).
    { intros m'. destruct (title_input i) as [|c r]; simpl.
      - intros [= <-]. auto.
      - unfold exceeds_max, exceeds_min. simpl maxLength. simpl minLength.
        cbv iota beta. destruct (length (c :: r) <? 10); [|discriminate].
        intros [= <-]. right. left. reflexivity. }
    assert (Hexcerpt : forall m', validateField (rules_of Fexcerpt) (excerpt_input i) = Some m' ->
                                  In m' [lit "Excerpt is required";
                                         lit "Excerpt must be less than 160 characters"]).
    { intros m'. destruct (excerpt_input i) as [|c r]; simpl.
      - intros [= <-]. auto.
      - unfold exceeds_max, exceeds_min. simpl maxLength. simpl minLength.
        cbv iota beta. destruct (160 <? length (c :: r)); [|discriminate].
        intros [= <-]. right. left. reflexivity. }
    assert (Htags : forall m', validateField (rules_of Ftags) (tags_input i) = Some m' ->
                               In m' [lit "At least one tag is required"]).
    { intros m'. destruct (tags_input i) as [|c r]; simpl.
      - intros [= <-]. auto.
      - discriminate. }
    destruct (validateField (rules_of Ftitle) (title_input i)) as [mt|] eqn:Et;
      destruct (validateField (rules_of Fexcerpt) (excerpt_input i)) as [me|] eqn:Ee;
      destruct (validateField (rules_of Ftags) (tags_input i)) as [mg|] eqn:Eg;
      simpl in Hin;
      repeat (destruct Hin as [Hin|Hin]; [injection Hin as <- <-; simpl field_value;
                                          split; [assumption | auto]|]);
      contradiction.
Qed.

Lemma validation_messages_witness :
  error_of Ftitle (validate (getValues nine_title_inputs)) = Some title_too_short.
Proof.
  destruct (validation_messages nine_title_inputs) as (_ & Hshort & _).
  apply Hshort. simpl. lia.
Defined.

End MorePublishFacts.

(** * More on tags *)

Module TagFacts.
Import Dashboard Samples ValidationFacts JsFacts PublishFacts MorePublishFacts.

Lemma trim_keeps_free c p : ~ In c p -> ~ In c (trim p).
Proof.
  intros Hfree Hin.
  destruct (trim_spec p) as (l & r & Heq & _).
  apply Hfree. rewrite Heq. apply in_or_app. right.
  apply in_or_app. now left.
Qed.

Lemma trim_trim p : trim (trim p) = trim p.
Proof.
  destruct (trim_spec p) as (_ & _ & _ & _ & _ & Hhead & Hlast).
  now apply trim_solid.
Qed.

Lemma trims_normal raw :
  Forall (fun t => ~ In comma t /\ starts_solid t /\ starts_solid (rev t))
    (map trim (split comma raw)).
Proof.
  apply Forall_map. pose proof (split_pieces_free comma raw) as Hfree.
  induction Hfree as [|p ps Hp _ IH]; constructor; [|exact IH].
  destruct (trim_spec p) as (_ & _ & _ & _ & _ & Hhead & Hlast).
  split; [now apply trim_keeps_free | split; assumption].
Qed.

Lemma tags_round_trip raw :
  map trim (split comma (join comma (map trim (split comma raw))))
  = map trim (split comma raw).
Proof.
  rewrite split_join.
  - rewrite map_map. apply map_ext. intros p. apply trim_trim.
  - pose proof (split_not_nil comma raw).
    destruct (split comma raw); [congruence | discriminate].
  - eapply Forall_impl; [|apply trims_normal]. simpl. tauto.
Qed.

(** X10: persisted tags are in normal form: no tag contains a comma or
    starts or ends with white space, so writing the tags of a document
    back into the field, joined by commas, and publishing again persists
    the very same tags. *)
Theorem persisted_tags_are_stable (env : Env) (img : option File)
    (content : jsstring) (data : ArticleForm) (s : State) :
  Forall (fun d =>
            Forall (fun t => ~ In comma t /\ starts_solid t /\
                             starts_solid (rev t)) (doc_tags d) /\
            map trim (split comma (join comma (doc_tags d))) = doc_tags d)
    (documents (events (snd (run (onSubmit env img content data) s)))) /\
  (exists d,
     documents (events (snd (run (onSubmit env None content data) s))) = [d] /\
     map trim (split comma (join comma (doc_tags d))) = doc_tags d).
Proof.
  rewrite !onSubmit_documents. cbv zeta. split.
  - assert (Hdoc : forall d, doc_tags d = map trim (split comma (tags data)) ->
              Forall (fun d =>
                Forall (fun t => ~ In comma t /\ starts_solid t /\
                                 starts_solid (rev t)) (doc_tags d) /\
                map trim (split comma (join comma (doc_tags d))) = doc_tags d)
              [d]).
    { intros d Hd. constructor; [|constructor]. rewrite Hd.
      split; [apply trims_normal | apply tags_round_trip]. }
    destruct img as [f|]; [|now apply Hdoc].
    destruct (uploadBytes env (storage_path (Date_now env) f) f); [constructor|].
    destruct (getDownloadURL env (storage_path (Date_now env) f));
      [constructor | now apply Hdoc].
  - eexists. split; [reflexivity|]. apply tags_round_trip.
Qed.

Lemma trimStart_blank s : blank s -> trimStart s = [].
Proof.
  induction 1 as [|c r Hc _ IH]; simpl; [reflexivity|]. now rewrite Hc.
Qed.

Lemma trim_blank s : blank s -> trim s = [].
Proof.
  intros H. unfold trim, trimEnd. now rewrite (trimStart_blank H).
Qed.

Lemma split_blank_pieces raw :
  Forall (fun c => is_white_space c = true \/ c = comma) raw ->
  Forall blank (split comma raw).
Proof.
  induction 1 as [|c r Hc _ IH]; simpl.
  - repeat constructor.
  - destruct (N.eqb_spec c comma) as [->|Hne].
    + constructor; [constructor | exact IH].
    + destruct Hc as [Hc|Hc]; [|congruence].
      destruct (split comma r) as [|p ps]; [repeat constructor; exact Hc|].
      inversion IH; subst. constructor; [|assumption].
      constructor; assumption.
Qed.

(** X11: the "required" rule on tags does not look inside the string: a
    raw value made only of white space and commas passes it, and every
    tag persisted from it is the empty string. *)
Theorem blank_tags_pass_and_persist_empty (env : Env) (s : State) :
  tags_input (inputs s) <> [] ->
  Forall (fun c => is_white_space c = true \/ c = comma) (tags_input (inputs s)) ->
  error_of Ftags (validate (getValues (inputs s))) = None /\
  Forall (fun d => doc_tags d <> [] /\ Forall (fun t => t = []) (doc_tags d))
    (documents (events (snd (run (submit env) s)))) /\
  (validate (getValues (inputs s)) = [] -> image s = None ->
   exists d, documents (events (snd (run (submit env) s))) = [d]).
Proof.
  intros Hne Hblank. split; [|split].
  - rewrite error_of_validate. apply (required_only_rule (f := Ftags)); auto.
  - rewrite submit_events.
    destruct (validate (getValues (inputs s))); [|constructor].
    rewrite onSubmit_documents. cbv zeta.
    assert (Hdoc : forall d,
              doc_tags d = map trim (split comma (tags_input (inputs s))) ->
              Forall (fun d => doc_tags d <> [] /\
                               Forall (fun t => t = []) (doc_tags d)) [d]).
    { intros d Hd. constructor; [|constructor]. rewrite Hd. split.
      - pose proof (split_not_nil comma (tags_input (inputs s))).
        destruct (split comma (tags_input (inputs s))); [congruence | discriminate].
      - apply Forall_map. eapply Forall_impl; [|apply split_blank_pieces, Hblank].
        intros p Hp. now apply trim_blank. }
    destruct (image s) as [f|]; [|now apply Hdoc].
    destruct (uploadBytes env (storage_path (Date_now env) f) f); [constructor|].
    destruct (getDownloadURL env (storage_path (Date_now env) f));
      [constructor | now apply Hdoc].
  - intros Hv Himg. rewrite submit_events, Hv, onSubmit_documents, Himg.
    eexists. reflexivity.
Qed.

Lemma blank_tags_pass_and_persist_empty_witness :
  let s := {| inputs := {| title_input := lit "Ten cosy sofas";
                           category_select := home_decor;
                           excerpt_input := lit "Sofas we like.";
                           tags_input := lit " , " |};
              errors := []; image := None; imagePreview := [];
              isSubmitting := false; showPreview := false; content := [] |} in
  error_of Ftags (validate (getValues (inputs s))) = None /\
  Forall (fun d => doc_tags d <> [] /\ Forall (fun t => t = []) (doc_tags d))
    (documents (events (snd (run (submit all_fine) s)))) /\
  exists d, documents (events (snd (run (submit all_fine) s))) = [d].
Proof.
  cbv zeta.
  match goal with
  | |- context [getValues (inputs ?st)] =>
      destruct (blank_tags_pass_and_persist_empty all_fine st) as (H1 & H2 & H3)
  end.
  - discriminate.
  - repeat (constructor; [vm_compute; auto|]). constructor.
  - split; [exact H1 | split; [exact H2 | apply H3; reflexivity]].
Defined.

End TagFacts.

(** * Choosing and removing the image *)

Module StagingFacts.
Import Dashboard Samples ValidationFacts JsFacts PublishFacts MorePublishFacts.
Import Staging.

(** A read that ends touches the preview and nothing else. *)
Lemma onloadend_frame i result p :
  let p' := then_ (onloadend i result) p in
  inputs (ui (world p')) = inputs (ui (world p)) /\
  image (ui (world p')) = image (ui (world p)) /\
  content (ui (world p')) = content (ui (world p)) /\
  log (world p') = log (world p).
Proof.
  cbv zeta. unfold then_, onloadend, bind, get, modify, of_component,
    setImagePreview, set_ui. simpl.
  destruct (nth_error (reading p) i); simpl; auto.
Qed.

Lemma loadends_frame ends p :
  inputs (ui (world (loadends ends p))) = inputs (ui (world p)) /\
  image (ui (world (loadends ends p))) = image (ui (world p)) /\
  content (ui (world (loadends ends p))) = content (ui (world p)) /\
  log (world (loadends ends p)) = log (world p).
Proof.
  revert p. induction ends as [|[i result] rest IH]; intros p; simpl; [auto|].
  destruct (IH (then_ (onloadend i result) p)) as (H1 & H2 & H3 & H4).
  destruct (onloadend_frame i result p) as (G1 & G2 & G3 & G4).
  rewrite H1, H2, H3, H4. auto.
Qed.

Lemma nth_error_app_new {A} (l : list A) x : nth_error (l ++ [x]) (length l) = Some x.
Proof. induction l; simpl; auto. Qed.

(** X12: choosing no file changes nothing. Choosing files stages the
    first one only and starts one read of it, leaving the preview as it
    was; when that read ends its result becomes the preview. Whichever
    pending reads end afterwards, and in whatever order, the staged file
    stays, and a submission that passes validation uploads that file
    under its own name first. *)
Theorem chosen_file_is_what_gets_uploaded (env : Env) (p : Picker)
    (f : File) (others : list File) (ends : list (nat * option jsstring))
    (dataUrl : jsstring) :
  let chosen := then_ (handleImageChange (f :: others)) p in
  let later := loadends ends chosen in
  then_ (handleImageChange []) p = p /\
  world chosen = {| ui := with_image (Some f) (ui (world p));
                    log := log (world p) |} /\
  reading chosen = reading p ++ [f] /\
  imagePreview (ui (world (then_ (onloadend (length (reading p)) (Some dataUrl))
                             chosen))) = dataUrl /\
  image (ui (world later)) = Some f /\
  (validate (getValues (inputs (ui (world p)))) = [] ->
   exists more,
     events (snd (run (submit env) (ui (world later))))
     = UploadBytes (storage_path (Date_now env) f) f :: more).
Proof.
  cbv zeta.
  assert (Hchosen : then_ (handleImageChange (f :: others)) p
                    = {| world := {| ui := with_image (Some f) (ui (world p));
                                     log := log (world p) |};
                         reading := reading p ++ [f] |}) by reflexivity.
  rewrite Hchosen.
  split; [destruct p; reflexivity|]. split; [reflexivity|].
  split; [reflexivity|]. split.
  - unfold then_, onloadend, bind, get. simpl.
    rewrite nth_error_app_new. reflexivity.
  - match goal with
    | |- context [loadends ends ?q] =>
        destruct (loadends_frame ends q) as (Hi & Hf & Hc & _)
    end.
    simpl in Hi, Hf, Hc. split; [exact Hf|].
    intros Hvalid. rewrite submit_events, Hi, Hf, Hvalid.
    run_onSubmit env; unfold events; simpl; eexists; reflexivity.
Qed.

Lemma chosen_file_is_what_gets_uploaded_witness :
  exists more,
    events (snd (run (submit all_fine)
                   (ui (world (loadends [(0, Some (lit "data:image/png;base64,AA=="))]
                                 (then_ (handleImageChange [photo])
                                    (fresh draft_without_photo)))))))
    = UploadBytes (storage_path 1700000000000 photo) photo :: more.
Proof.
  apply (chosen_file_is_what_gets_uploaded all_fine (fresh draft_without_photo)
           photo [] [(0, Some (lit "data:image/png;base64,AA=="))] []).
  reflexivity.
Defined.

(** X13: [removeImage] drops the staged file and the preview and
    touches nothing else. A read that was still pending can bring a
    preview back when it ends, but never the file: whichever reads end
    after the removal, a submission makes no call to Storage and any
    document it writes has the empty [imageUrl]. *)
Theorem removed_image_is_never_uploaded (env : Env) (p : Picker)
    (ends : list (nat * option jsstring)) (stale : File)
    (dataUrl : jsstring) :
  let removed := then_ (of_component removeImage) p in
  let later := loadends ends removed in
  world removed = {| ui := with_imagePreview [] (with_image None (ui (world p)));
                     log := log (world p) |} /\
  reading removed = reading p /\
  image (ui (world later)) = None /\
  existsb is_storage_call (events (snd (run (submit env) (ui (world later)))))
  = false /\
  Forall (fun d => doc_imageUrl d = lit "")
    (documents (events (snd (run (submit env) (ui (world later)))))) /\
  (nth_error (reading p) 0 = Some stale ->
   let shown := ui (world (then_ (onloadend 0 (Some dataUrl)) removed)) in
   imagePreview shown = dataUrl /\ image shown = None).
Proof.
  cbv zeta.
  assert (Hremoved : then_ (of_component removeImage) p
                     = {| world := {| ui := with_imagePreview []
                                              (with_image None (ui (world p)));
                                      log := log (world p) |};
                          reading := reading p |}) by reflexivity.
  rewrite Hremoved.
  split; [reflexivity|]. split; [reflexivity|].
  match goal with
  | |- context [loadends ends ?q] =>
      destruct (loadends_frame ends q) as (Hi & Hf & Hc & _)
  end.
  simpl in Hi, Hf, Hc.
  split; [exact Hf|]. split; [|split].
  - rewrite submit_events, Hf.
    destruct (validate _); [|reflexivity].
    run_onSubmit env; reflexivity.
  - rewrite submit_events, Hf.
    destruct (validate _); [|constructor].
    rewrite onSubmit_documents. repeat constructor.
  - intros Hstale. unfold then_, onloadend, bind, get. simpl.
    destruct (reading p); [discriminate Hstale|]. split; reflexivity.
Qed.

Lemma removed_image_is_never_uploaded_witness :
  let p := then_ (handleImageChange [photo]) (fresh draft_without_photo) in
  let shown := ui (world (then_ (onloadend 0 (Some (lit "data:image/png;base64,AA==")))
                            (then_ (of_component removeImage) p))) in
  imagePreview shown = lit "data:image/png;base64,AA==" /\ image shown = None.
Proof.
  apply (removed_image_is_never_uploaded all_fine
           (then_ (handleImageChange [photo]) (fresh draft_without_photo))
           [] photo (lit "data:image/png;base64,AA==")).
  reflexivity.
Defined.

End StagingFacts.

(** * The preview pane and the storage keys *)

Module PreviewFacts.
Import Dashboard Samples ValidationFacts JsFacts PublishFacts MorePublishFacts.

(** X14: the preview heading is never empty (an empty or missing title
    shows the placeholder), an image is shown exactly when there is a
    preview string, and for every document a submission writes the pane
    fed with the same fields shows exactly the document's title,
    excerpt, tags and content. *)
Theorem preview_shows_what_is_published (env : Env) (s : State)
    (props : PreviewPane.Props) :
  let view := PreviewPane.ArticlePreview
                (PreviewPane.props_of (getValues (inputs s)) (content s)
                   (imagePreview s)) in
  PreviewPane.h1 (PreviewPane.ArticlePreview props) <> [] /\
  (PreviewPane.img_src (PreviewPane.ArticlePreview props) = None
   <-> PreviewPane.imagePreview props = []) /\
  Forall (fun d =>
            PreviewPane.h1 view = doc_title d /\
            PreviewPane.paragraph view = doc_excerpt d /\
            map ArticlePreview.text (PreviewPane.spans view) = doc_tags d /\
            PreviewPane.inner_html view = doc_content d)
    (documents (events (snd (run (submit env) s)))) /\
  (validate (getValues (inputs s)) = [] -> image s = None ->
   exists d, documents (events (snd (run (submit env) s))) = [d]).
Proof.
  cbv zeta. split; [|split; [|split]].
  - unfold PreviewPane.ArticlePreview. simpl.
    destruct (PreviewPane.title props) as [[|c r]|]; discriminate.
  - unfold PreviewPane.ArticlePreview. simpl.
    destruct (PreviewPane.imagePreview props); split; congruence.
  - rewrite submit_events.
    destruct (validate (getValues (inputs s))) as [|bad rest] eqn:Hv;
      [|constructor].
    assert (Ht : 10 <= length (title_input (inputs s))).
    { pose proof (error_of_validate Ftitle (getValues (inputs s))) as E.
      rewrite Hv in E. simpl in E. apply title_rule. symmetry. exact E. }
    rewrite onSubmit_documents. cbv zeta.
    assert (Hdoc : forall url,
      Forall (fun d =>
                PreviewPane.h1
                  (PreviewPane.ArticlePreview
                     (PreviewPane.props_of (getValues (inputs s)) (content s)
                        (imagePreview s))) = doc_title d /\
                PreviewPane.paragraph
                  (PreviewPane.ArticlePreview
                     (PreviewPane.props_of (getValues (inputs s)) (content s)
                        (imagePreview s))) = doc_excerpt d /\
                map ArticlePreview.text
                  (PreviewPane.spans
                     (PreviewPane.ArticlePreview
                        (PreviewPane.props_of (getValues (inputs s)) (content s)
                           (imagePreview s)))) = doc_tags d /\
                PreviewPane.inner_html
                  (PreviewPane.ArticlePreview
                     (PreviewPane.props_of (getValues (inputs s)) (content s)
                        (imagePreview s))) = doc_content d)
        [{| doc_title := title (getValues (inputs s));
            doc_category := category (getValues (inputs s));
            doc_excerpt := excerpt (getValues (inputs s));
            doc_content := content s; doc_imageUrl := url;
            doc_tags := map trim (split comma (tags (getValues (inputs s))));
            doc_createdAt := toISOString_now env |}]).
    { intros url. constructor; [|constructor]. simpl.
      split; [|split; [reflexivity|split; [apply map_indexed_text | reflexivity]]].
      destruct (title_input (inputs s)); [simpl in Ht; lia | reflexivity]. }
    destruct (image s) as [f|]; [|apply Hdoc].
    destruct (uploadBytes env (storage_path (Date_now env) f) f); [constructor|].
    destruct (getDownloadURL env (storage_path (Date_now env) f));
      [constructor | apply Hdoc].
  - intros Hv Himg. rewrite submit_events, Hv, onSubmit_documents, Himg.
    eexists. reflexivity.
Qed.

Lemma preview_shows_what_is_published_witness :
  exists d,
    documents (events (snd (run (submit all_fine) draft_without_photo))) = [d].
Proof.
  apply (preview_shows_what_is_published all_fine draft_without_photo
           (PreviewPane.props_of (getValues good_inputs) [] []));
    reflexivity.
Defined.

End PreviewFacts.

Module KeyFacts.
Import Dashboard Samples PublishFacts Keys.

Lemma lit_inj a b : lit a = lit b -> a = b.
Proof.
  unfold lit. intros H.
  rewrite <- (string_of_list_ascii_of_string a),
          <- (string_of_list_ascii_of_string b).
  f_equal. revert H.
  generalize (list_ascii_of_string a) (list_ascii_of_string b).
  intros la. induction la as [|x xs IH]; intros [|y ys]; simpl; intros H;
    try discriminate; [reflexivity|].
  injection H as Hxy Hrest. f_equal; [|now apply IH].
  rewrite <- (ascii_N_embedding x), <- (ascii_N_embedding y). now f_equal.
Qed.

Lemma first_cut_unique (x : char) l1 l2 r1 r2 :
  ~ In x l1 -> ~ In x l2 ->
  l1 ++ x :: r1 = l2 ++ x :: r2 -> l1 = l2 /\ r1 = r2.
Proof.
  revert l2. induction l1 as [|a l1 IH]; intros [|b l2] H1 H2 Heq;
    simpl in *.
  - injection Heq as <-. auto.
  - injection Heq as <- _. tauto.
  - injection Heq as -> _. tauto.
  - injection Heq as <- Heq. destruct (IH l2) as [-> ->]; auto.
Qed.

Lemma digits_no_dash d : ~ In dash (lit (NilEmpty.string_of_uint d)).
Proof.
  unfold dash. induction d; simpl; [tauto|..];
    (intros [H|H]; [discriminate H | auto]).
Qed.

Lemma decimal_nonneg_no_dash n :
  (0 <= n)%Z -> ~ In dash (lit (decimal n)) /\ lit (decimal n) <> [].
Proof.
  intros Hn. unfold decimal. destruct n as [|p|p]; [| |lia].
  - split; [vm_compute; intuition discriminate | discriminate].
  - simpl. unfold NilZero.string_of_uint.
    pose proof (DecimalPos.Unsigned.to_uint_nonnil p) as Hnn.
    destruct (Pos.to_uint p) eqn:Hd; [congruence| | | | | | | | | |];
      (split; [rewrite <- Hd at 1; apply digits_no_dash | discriminate]).
Qed.

Lemma decimal_neg p :
  lit (decimal (Z.neg p)) = dash :: lit (decimal (Z.pos p)).
Proof.
  unfold decimal. simpl. unfold NilZero.string_of_uint.
  pose proof (DecimalPos.Unsigned.to_uint_nonnil p) as Hnn.
  destruct (Pos.to_uint p); [congruence| | | | | | | | | |]; reflexivity.
Qed.

Lemma decimal_inj a b : decimal a = decimal b -> a = b.
Proof.
  intros H. pose proof (decimal_reads_back a) as Ha.
  rewrite H, decimal_reads_back in Ha. congruence.
Qed.

(** X15: the storage key tells the millisecond and the file name apart:
    two uploads get the same key only when [Date.now()] gave the same
    number and the files have the same name. *)
Theorem storage_path_injective (n1 n2 : Z) (f1 f2 : File) :
  storage_path n1 f1 = storage_path n2 f2 ->
  n1 = n2 /\ name f1 = name f2.
Proof.
  unfold storage_path, number_to_string. intros H.
  apply app_inv_head in H. change (lit "-") with [dash] in H. simpl in H.
  assert (Hnonneg : forall a b r1 r2, (0 <= a)%Z -> (0 <= b)%Z ->
            lit (decimal a) ++ dash :: r1 = lit (decimal b) ++ dash :: r2 ->
            a = b /\ r1 = r2).
  { intros a b r1 r2 Ha Hb Heq.
    destruct (decimal_nonneg_no_dash Ha) as [Fa _].
    destruct (decimal_nonneg_no_dash Hb) as [Fb _].
    destruct (@first_cut_unique dash _ _ _ _ Fa Fb Heq) as [Hl Hr].
    split; [|exact Hr]. now apply decimal_inj, lit_inj. }
  assert (Hmixed : forall a p r1 r2, (0 <= a)%Z ->
            lit (decimal a) ++ dash :: r1 = lit (decimal (Z.neg p)) ++ dash :: r2 ->
            False).
  { intros a p r1 r2 Ha Heq. rewrite decimal_neg in Heq.
    destruct (decimal_nonneg_no_dash Ha) as [Fa Na].
    change ((dash :: lit (decimal (Z.pos p))) ++ dash :: r2)
      with ([] ++ dash :: (lit (decimal (Z.pos p)) ++ dash :: r2)) in Heq.
    destruct (@first_cut_unique dash _ [] _ _ Fa (fun F => F) Heq) as [Hl _].
    congruence. }
  destruct (Z.neg_nonneg_cases n1) as [Hn1|Hn1];
    destruct (Z.neg_nonneg_cases n2) as [Hn2|Hn2].
  - destruct n1 as [|p|p]; try lia. destruct n2 as [|q|q]; try lia.
    rewrite !decimal_neg in H. simpl in H. injection H as H.
    destruct (Hnonneg (Z.pos p) (Z.pos q) _ _ ltac:(lia) ltac:(lia) H) as [Hpq Hr].
    split; [congruence | exact Hr].
  - destruct n1 as [|p|p]; try lia. exfalso.
    now apply (Hmixed n2 p (name f2) (name f1) Hn2).
  - destruct n2 as [|q|q]; try lia. exfalso.
    now apply (Hmixed n1 q (name f1) (name f2) Hn1).
  - now apply Hnonneg.
Qed.

Lemma storage_path_injective_witness :
  1700000000000%Z = 1700000000000%Z /\ name photo = lit "sofa.png".
Proof.
  apply (@storage_path_injective 1700000000000 1700000000000 photo
           {| name := lit "sofa.png"; bytes := [] |}).
  reflexivity.
Defined.

End KeyFacts.
